(** * Luxora UI: the InputDropdown interaction logic

    A shallow embedding of the pure parts of the dropdown widget:
    - [shared/utils]: [filterOptions], [getSelectedOptionLabels];
    - [shared/hooks]: [useKeyboardNavigation], [useVirtualScroll];
    - [components/InputDropdown]: the selection handlers and the constants
      that connect the hooks.

    Conventions of the model.
    - A JavaScript string is a Rocq [string]; a character stands for one
      code unit in the range U+0000..U+00FF (ASCII and Latin-1).  On that
      range [toLowerCase] and [trim] are the functions below, character by
      character.  Strings with code units above U+00FF are outside the
      model: there [String.prototype.toLowerCase] depends on the context
      of a character (the capital sigma U+03A3 at the end of a word) and
      may change the length (U+0130), so what is proved of [toLowerCase]
      and of case here is proved of strings over U+0000..U+00FF only.
    - A JavaScript number that holds an index or a pixel count is a [Z].
    - An object has an identity: [ident] is the reference of an [Option]
      object, and the strict equality [===] used by [Array.indexOf]
      compares references only.
    - [undefined] is [None]; reading a property of [undefined] throws. *)

From Stdlib Require Import List Bool ZArith Lia Ascii String Sorted.
From Stdlib Require Import DecimalString.
Import ListNotations.
Open Scope Z_scope.

(* ================================================================== *)
(** * Strings *)
(* ================================================================== *)

Module JsString.

Local Open Scope nat_scope.

(** White space and line terminators stripped by [String.prototype.trim]:
    TAB, LF, VT, FF, CR, SPACE and NO-BREAK SPACE. *)
Definition isWhiteSpace (c : ascii) : bool :=
  let n := nat_of_ascii c in
  ((9 <=? n) && (n <=? 13)) || (n =? 32) || (n =? 160).

(** Characters with a lower-case mapping: A-Z, and the Latin-1 capitals
    U+00C0..U+00DE without the multiplication sign U+00D7. *)
Definition isUpperCase (c : ascii) : bool :=
  let n := nat_of_ascii c in
  ((65 <=? n) && (n <=? 90))
  || ((192 <=? n) && (n <=? 222) && negb (n =? 215)).

Definition lowerChar (c : ascii) : ascii :=
  if isUpperCase c then ascii_of_nat (nat_of_ascii c + 32) else c.

(** [s.toLowerCase()] on strings over U+0000..U+00FF, where the
    conversion maps each code unit on its own. *)
Fixpoint toLowerCase (s : string) : string :=
  match s with
  | EmptyString => EmptyString
  | String c s' => String (lowerChar c) (toLowerCase s')
  end.

Fixpoint trimStart (s : string) : string :=
  match s with
  | EmptyString => EmptyString
  | String c s' => if isWhiteSpace c then trimStart s' else s
  end.

Fixpoint trimEnd (s : string) : string :=
  match s with
  | EmptyString => EmptyString
  | String c s' =>
      match trimEnd s' with
      | EmptyString =>
          if isWhiteSpace c then EmptyString else String c EmptyString
      | t => String c t
      end
  end.

Definition trim (s : string) : string := trimEnd (trimStart s).

(** Truthiness of a string: only the empty string is falsy. *)
Definition truthy (s : string) : bool :=
  match s with
  | EmptyString => false
  | String _ _ => true
  end.

(** [s.includes(sub)]: [sub] occurs in [s] at some position. *)
Fixpoint includes (s sub : string) : bool :=
  if String.prefix sub s then true
  else match s with
       | EmptyString => false
       | String _ s' => includes s' sub
       end.

(** Every character of [s] is white space. *)
Fixpoint allWhiteSpace (s : string) : bool :=
  match s with
  | EmptyString => true
  | String c s' => isWhiteSpace c && allWhiteSpace s'
  end.

End JsString.

(* ================================================================== *)
(** * Arrays indexed by numbers *)
(* ================================================================== *)

Module JsArray.

(** [l[i]]: [undefined] outside [0 .. length - 1]. *)
Definition get {A : Type} (l : list A) (i : Z) : option A :=
  if i <? 0 then None else nth_error l (Z.to_nat i).

Definition len {A : Type} (l : list A) : Z := Z.of_nat (List.length l).

(** [l.findIndex((x, i) => p x i)]. *)
Fixpoint findIndexFrom {A : Type} (p : A -> Z -> bool) (l : list A)
  (i : Z) : Z :=
  match l with
  | [] => -1
  | x :: l' => if p x i then i else findIndexFrom p l' (i + 1)
  end.

Definition findIndex {A : Type} (p : A -> Z -> bool) (l : list A) : Z :=
  findIndexFrom p l 0.

(** [l.slice(start, end)], with negative arguments counted from the end. *)
Definition slice {A : Type} (l : list A) (start end_ : Z) : list A :=
  let n := len l in
  let k := if start <? 0 then Z.max (n + start) 0 else Z.min start n in
  let final := if end_ <? 0 then Z.max (n + end_) 0 else Z.min end_ n in
  firstn (Z.to_nat (final - k)) (skipn (Z.to_nat k) l).

(** [l.map((x, i) => f x i)], the index counted from [i]. *)
Fixpoint mapFrom {A B : Type} (f : A -> Z -> B) (l : list A) (i : Z)
  : list B :=
  match l with
  | [] => []
  | x :: l' => f x i :: mapFrom f l' (i + 1)
  end.

Definition mapi {A B : Type} (f : A -> Z -> B) (l : list A) : list B :=
  mapFrom f l 0.

End JsArray.

(* ================================================================== *)
(** * shared/types: Option *)
(* ================================================================== *)

Record Option : Type := mkOption {
  ident : nat;                    (* the object's reference *)
  label : string;
  value : string;
  disabled : option bool;
  description : option string
}.

(** [a === b] on objects. *)
Definition sameObject (a b : Option) : bool := Nat.eqb (ident a) (ident b).

(** Truthiness of [option.disabled]. *)
Definition isDisabled (o : Option) : bool :=
  match disabled o with
  | Some true => true
  | _ => false
  end.

(** [options.indexOf(x)]: the first position holding the object [x]. *)
Fixpoint indexOfObject (options : list Option) (x : Option) : Z :=
  match options with
  | [] => -1
  | y :: rest =>
      if sameObject y x then 0
      else let r := indexOfObject rest x in
           if r <? 0 then -1 else r + 1
  end.

(** [options.indexOf(x)] where [x] may be [undefined]; an array of
    options holds no [undefined]. *)
Definition indexOf (options : list Option) (x : option Option) : Z :=
  match x with
  | None => -1
  | Some o => indexOfObject options o
  end.

(** The selection: [Option | Option[] | undefined]. *)
Inductive Selection : Type :=
| Undefined
| Single (o : Option)
| Multi (l : list Option).

(* ================================================================== *)
(** * shared/utils *)
(* ================================================================== *)

Import JsString.

(** The predicate of the [filter] call in [filterOptions]. *)
Definition matchesLowercaseQuery (lowercaseQuery : string) (option : Option)
  : bool :=
  includes (toLowerCase (label option)) lowercaseQuery
  || includes (toLowerCase (value option)) lowercaseQuery
  || match description option with
     | Some d => includes (toLowerCase d) lowercaseQuery
     | None => false
     end.

Definition filterOptions (options : list Option) (query : string)
  : list Option :=
  if negb (truthy (trim query)) then options
  else
    let lowercaseQuery := toLowerCase query in
    filter (matchesLowercaseQuery lowercaseQuery) options.

(** [!value] holds for [undefined] only, an object or an array is truthy;
    an array passes [multiple && Array.isArray(value)], a single option
    passes [!multiple && !Array.isArray(value)], and every other case
    reaches the final [return []]. *)
Definition getSelectedOptionLabels (value : Selection) (multiple : bool)
  : list string :=
  match value with
  | Undefined => []
  | Multi l => if multiple then map label l else []
  | Single o => if negb multiple then [label o] else []
  end.

(** A value of unknown type, as [isEmpty] receives it. *)
Unset Elimination Schemes.
Inductive JsValue : Type :=
| VNull
| VUndefined
| VBoolean (b : bool)
| VNumber (n : Z)
| VString (s : string)
| VArray (elements : list JsValue)
| VObject (properties : list (string * JsValue))
| VFunction.
Set Elimination Schemes.

Definition isEmpty (value : JsValue) : bool :=
  match value with
  | VNull | VUndefined => true
  | VString s => (trim s =? "")%string
  | VArray elements => JsArray.len elements =? 0
  | VObject properties => JsArray.len (map fst properties) =? 0
  | _ => false
  end.

(* ================================================================== *)
(** * shared/hooks *)
(* ================================================================== *)

(** The completion of a JavaScript call: a value, or a thrown TypeError
    (a property read on [undefined]). *)
Inductive Completion (A : Type) : Type :=
| Normal (a : A)
| Throw.
Arguments Normal {A} a.
Arguments Throw {A}.

Module Hooks.

Import JsArray.

(** ** useKeyboardNavigation *)

(** The callbacks handed to the hook. *)
Inductive Callback : Type :=
| OnOpen
| OnSelect (option : Option)
| OnClose.

(** What one run of [handleKeyDown] did: whether it called
    [event.preventDefault()], the callbacks it invoked, in order, and the
    highlighted index after its [setHighlightedIndex] call (the index it
    found, when it made none). *)
Record KeyOutcome : Type := mkOutcome {
  defaultPrevented : bool;
  called : list Callback;
  nextHighlighted : Z
}.

Definition availableOptions (options : list Option) : list Option :=
  filter (fun option => negb (isDisabled option)) options.

(** [currentIndex] of both arrow-key updaters. *)
Definition currentIndex (options : list Option) (prev : Z) : Z :=
  findIndex
    (fun _ index =>
       indexOf options (get (availableOptions options) index) =? prev)
    (availableOptions options).

Definition nextIndex (options : list Option) (prev : Z) : Z :=
  if currentIndex options prev <? len (availableOptions options) - 1
  then currentIndex options prev + 1
  else 0.

Definition prevIndex (options : list Option) (prev : Z) : Z :=
  if 0 <? currentIndex options prev
  then currentIndex options prev - 1
  else len (availableOptions options) - 1.

(** The updater passed to [setHighlightedIndex] on ArrowDown. *)
Definition arrowDown (options : list Option) (prev : Z) : Z :=
  indexOf options (get (availableOptions options) (nextIndex options prev)).

(** The updater passed to [setHighlightedIndex] on ArrowUp. *)
Definition arrowUp (options : list Option) (prev : Z) : Z :=
  indexOf options (get (availableOptions options) (prevIndex options prev)).

Definition home (options : list Option) (highlightedIndex : Z) : Z :=
  let firstAvailable :=
    findIndex (fun option _ => negb (isDisabled option)) options in
  if negb (firstAvailable =? -1) then firstAvailable else highlightedIndex.

Definition end_ (options : list Option) (highlightedIndex : Z) : Z :=
  if 0 <? len (availableOptions options)
  then indexOf options
         (get (availableOptions options)
            (len (availableOptions options) - 1))
  else highlightedIndex.

(** The Enter / Space branch: [options[highlightedIndex].disabled] is a
    property read, which throws on [undefined]. *)
Definition enter (options : list Option) (highlightedIndex : Z)
  : Completion (list Callback) :=
  if (0 <=? highlightedIndex) && (highlightedIndex <? len options) then
    match get options highlightedIndex with
    | None => Throw
    | Some option =>
        if negb (isDisabled option) then Normal [OnSelect option]
        else Normal []
    end
  else Normal [].

Definition handleKeyDown (options : list Option) (isOpen : bool)
  (onOpenGiven : bool) (highlightedIndex : Z) (key : string)
  : Completion KeyOutcome :=
  if negb isOpen then
    if ((key =? "ArrowDown") || (key =? "ArrowUp") || (key =? "Enter")
        || (key =? " "))%string
    then Normal (mkOutcome true (if onOpenGiven then [OnOpen] else [])
                   highlightedIndex)
    else Normal (mkOutcome false [] highlightedIndex)
  else if (key =? "ArrowDown")%string then
    Normal (mkOutcome true [] (arrowDown options highlightedIndex))
  else if (key =? "ArrowUp")%string then
    Normal (mkOutcome true [] (arrowUp options highlightedIndex))
  else if ((key =? "Enter") || (key =? " "))%string then
    match enter options highlightedIndex with
    | Normal calls => Normal (mkOutcome true calls highlightedIndex)
    | Throw => Throw
    end
  else if (key =? "Escape")%string then
    Normal (mkOutcome true [OnClose] highlightedIndex)
  else if (key =? "Home")%string then
    Normal (mkOutcome true [] (home options highlightedIndex))
  else if (key =? "End")%string then
    Normal (mkOutcome true [] (end_ options highlightedIndex))
  else Normal (mkOutcome false [] highlightedIndex).

(** Key presses handled one after the other over the same options while
    the list is open: the highlighted index they leave. *)
Fixpoint pressKeys (options : list Option) (onOpenGiven : bool)
  (highlightedIndex : Z) (keys : list string) : Completion Z :=
  match keys with
  | [] => Normal highlightedIndex
  | key :: rest =>
      match handleKeyDown options true onOpenGiven highlightedIndex key with
      | Normal out => pressKeys options onOpenGiven (nextHighlighted out) rest
      | Throw => Throw
      end
  end.

(** The state of the hook between events: the [isOpen] argument of the
    last render and the [highlightedIndex] state. *)
Record NavState : Type := mkNav {
  isOpen : bool;
  highlightedIndex : Z
}.

(** [useState(-1)], and the list starts closed. *)
Definition initialNav : NavState := mkNav false (-1).

(** The body of the effect on [isOpen]. *)
Definition resetEffect (isOpen : bool) (highlightedIndex : Z) : Z :=
  if negb isOpen then -1 else highlightedIndex.

(** A render with a new [isOpen]; the effect runs when its dependency
    [isOpen] changed. *)
Definition render (st : NavState) (isOpen' : bool) : NavState :=
  mkNav isOpen'
    (if Bool.eqb isOpen' (isOpen st) then highlightedIndex st
     else resetEffect isOpen' (highlightedIndex st)).

(** One event of the hook: a key press handled by [handleKeyDown], or a
    render in which the caller passes [isOpen].  The setter that the hook
    returns next to [highlightedIndex] is no event: [InputDropdown] takes
    [highlightedIndex] only. *)
Inductive navStep : NavState -> NavState -> Prop :=
| step_key (st : NavState) (options : list Option) (onOpenGiven : bool)
    (key : string) (out : KeyOutcome) :
    handleKeyDown options (isOpen st) onOpenGiven (highlightedIndex st) key
    = Normal out ->
    navStep st (mkNav (isOpen st) (nextHighlighted out))
| step_render (st : NavState) (isOpen' : bool) :
    navStep st (render st isOpen').

Inductive reachable : NavState -> Prop :=
| reach_init : reachable initialNav
| reach_step (st st' : NavState) :
    reachable st -> navStep st st' -> reachable st'.

(** ** useVirtualScroll *)

(** [Math.floor(a / b)] and [Math.ceil(a / b)] for a positive [b]. *)
Definition floorDiv (a b : Z) : Z := a / b.
Definition ceilDiv (a b : Z) : Z := - ((- a) / b).

Record VirtualRow (T : Type) : Type := mkRow {
  item : T;
  index : Z
}.
Arguments mkRow {T} item index.
Arguments item {T} _.
Arguments index {T} _.

Record VirtualScroll (T : Type) : Type := mkScroll {
  visibleItems : list (VirtualRow T);
  totalHeight : Z;
  offsetY : Z
}.
Arguments mkScroll {T} visibleItems totalHeight offsetY.
Arguments visibleItems {T} _.
Arguments totalHeight {T} _.
Arguments offsetY {T} _.

Definition startIndex (itemHeight overscan scrollTop : Z) : Z :=
  Z.max 0 (floorDiv scrollTop itemHeight - overscan).

Definition endIndex {T : Type} (items : list T)
  (itemHeight containerHeight overscan scrollTop : Z) : Z :=
  Z.min (len items - 1)
    (ceilDiv (scrollTop + containerHeight) itemHeight + overscan).

(** The hook at the scroll offset [scrollTop] held in its state. *)
Definition useVirtualScroll {T : Type} (items : list T)
  (itemHeight containerHeight overscan scrollTop : Z) : VirtualScroll T :=
  let startIndex := startIndex itemHeight overscan scrollTop in
  let endIndex :=
    endIndex items itemHeight containerHeight overscan scrollTop in
  mkScroll
    (mapi (fun item index => mkRow item (startIndex + index))
       (slice items startIndex (endIndex + 1)))
    (len items * itemHeight)
    (startIndex * itemHeight).

(** ** useBreakpoint *)

Inductive Breakpoint : Type := sm | md | lg | xl | xxl.

(** [updateBreakpoint] at the window width [width]. *)
Definition updateBreakpoint (width : Z) : Breakpoint :=
  if 1536 <=? width then xxl
  else if 1280 <=? width then xl
  else if 1024 <=? width then lg
  else if 768 <=? width then md
  else sm.

Record BreakpointInfo : Type := mkBreakpointInfo {
  breakpoint : Breakpoint;
  isMobile : bool;
  isTablet : bool;
  isDesktop : bool
}.

Definition breakpointEqb (a b : Breakpoint) : bool :=
  match a, b with
  | sm, sm | md, md | lg, lg | xl, xl | xxl, xxl => true
  | _, _ => false
  end.

(** What the hook returns for the breakpoint in its state. *)
Definition useBreakpoint (breakpoint : Breakpoint) : BreakpointInfo :=
  mkBreakpointInfo breakpoint
    (breakpointEqb breakpoint sm)
    (breakpointEqb breakpoint md)
    (existsb (breakpointEqb breakpoint) [lg; xl; xxl]).

End Hooks.

(* ================================================================== *)
(** * components/InputDropdown *)
(* ================================================================== *)

Module InputDropdown.

Import JsArray.

Definition ITEM_HEIGHT : Z := 40.
Definition DEFAULT_MAX_HEIGHT : Z := 240.
Definition LARGE_LIST_THRESHOLD : Z := 100.

(** The properties the interaction logic reads.  [value = Undefined] is
    the uncontrolled component. *)
Record Props : Type := mkProps {
  options : list Option;
  propValue : Selection;
  multiple : bool;
  propDisabled : bool;
  searchable : bool;
  enableVirtualScroll : option bool;
  maxHeight : Z;
  loading : bool;
  closeOnSelect : bool
}.

(** The state of the component.  In single mode the component starts, and
    [handleClear] leaves, [internalValue] at the empty object cast to
    [Option]; that object lies outside the [Option] type and has no
    counterpart here, so the statements below range over every state and
    [handleClear] is not part of the model. *)
Record State : Type := mkState {
  isOpen : bool;
  searchQuery : string;
  internalValue : Selection
}.

Definition currentValue (p : Props) (st : State) : Selection :=
  match propValue p with
  | Undefined => internalValue st
  | v => v
  end.

Definition filteredOptions (p : Props) (st : State) : list Option :=
  if loading p then []
  else if searchable p then filterOptions (options p) (searchQuery st)
       else options p.

Definition shouldUseVirtualScroll (p : Props) (st : State) : bool :=
  match enableVirtualScroll p with
  | Some b => b
  | None => LARGE_LIST_THRESHOLD <? len (filteredOptions p st)
  end.

Definition dropdownHeight (p : Props) (st : State) : Z :=
  Z.min (maxHeight p) (len (filteredOptions p st) * ITEM_HEIGHT).

Definition virtualScrollProps (p : Props) (st : State) (scrollTop : Z)
  : Hooks.VirtualScroll Option :=
  Hooks.useVirtualScroll (filteredOptions p st) ITEM_HEIGHT
    (dropdownHeight p st) 5 scrollTop.

(** [renderVirtualItems] of [DropdownMenu]: the options it turns into
    [OptionItem] rows. *)
Definition renderVirtualItems (p : Props) (st : State) (scrollTop : Z)
  : list Option :=
  if negb (shouldUseVirtualScroll p st) then filteredOptions p st
  else map Hooks.item (Hooks.visibleItems (virtualScrollProps p st scrollTop)).

(** The rows of [DropdownMenu]: none while the list is closed, loading or
    empty. *)
Definition renderedRows (p : Props) (st : State) (scrollTop : Z)
  : list Option :=
  if negb (isOpen st) then []
  else if loading p then []
  else if len (filteredOptions p st) =? 0 then []
  else renderVirtualItems p st scrollTop.

Definition handleOpen (p : Props) (st : State) : State :=
  if propDisabled p then st
  else mkState true (searchQuery st) (internalValue st).

Definition handleClose (st : State) : State :=
  mkState false EmptyString (internalValue st).

(** [if (value === undefined) setInternalValue(newValue)]. *)
Definition setInternalValue (p : Props) (st : State) (newValue : Selection)
  : State :=
  match propValue p with
  | Undefined => mkState (isOpen st) (searchQuery st) newValue
  | _ => st
  end.

(** The multi-mode branch of [handleSelect]: membership by [value]. *)
Definition toggled (currentValue : list Option) (option : Option)
  : list Option :=
  let isSelected :=
    existsb (fun item => (value item =? value option)%string) currentValue in
  if isSelected
  then filter (fun item => negb (value item =? value option)%string)
         currentValue
  else currentValue ++ [option].

(** [handleSelect]: the next state and the arguments of the [onChange]
    calls it makes. *)
Definition handleSelect (p : Props) (st : State) (option : Option)
  : State * list Selection :=
  if isDisabled option then (st, [])
  else
    match multiple p, currentValue p st with
    | true, Multi cv =>
        let newValue := Multi (toggled cv option) in
        (setInternalValue p st newValue, [newValue])
    | _, _ =>
        let newValue := Single option in
        let st' := if closeOnSelect p then handleClose st else st in
        (setInternalValue p st' newValue, [newValue])
    end.

(** The component's wiring of the hook's callbacks. *)
Definition runCallback (p : Props) (acc : State * list Selection)
  (c : Hooks.Callback) : State * list Selection :=
  match c with
  | Hooks.OnOpen => (handleOpen p (fst acc), snd acc)
  | Hooks.OnClose => (handleClose (fst acc), snd acc)
  | Hooks.OnSelect o =>
      let r := handleSelect p (fst acc) o in (fst r, snd acc ++ snd r)
  end.

(** The [keydown] listener that [useKeyboardNavigation] puts on the
    document, with the callbacks the component hands to the hook: the
    hook's handler over the filtered options, then the callbacks it
    called.  The other key handlers of the component (the trigger's, see
    [handleTriggerKeyDown], an option row's and the Remove button of a
    tag) are functions of their own and not part of it. *)
Definition onKeyDown (p : Props) (st : State) (highlightedIndex : Z)
  (key : string) : Completion (State * list Selection) :=
  match Hooks.handleKeyDown (filteredOptions p st) (isOpen st) true
          highlightedIndex key with
  | Normal out => Normal (fold_left (runCallback p) (Hooks.called out) (st, []))
  | Throw => Throw
  end.

(** [isOptionSelected]; in single mode it reads [currentValue.value]. *)
Definition isOptionSelected (p : Props) (st : State) (option : Option)
  : Completion bool :=
  match currentValue p st with
  | Multi cv =>
      Normal
        (if multiple p
         then existsb (fun item => (value item =? value option)%string) cv
         else false)
  | Single o =>
      Normal (negb (multiple p) && (value o =? value option)%string)
  | Undefined => if multiple p then Normal false else Throw
  end.

(** [selectedLabels] and [displayValue]. *)
Definition selectedLabels (p : Props) (st : State) : list string :=
  getSelectedOptionLabels (currentValue p st) (multiple p).

Definition displayValue (p : Props) (st : State) : string :=
  if 0 <? len (selectedLabels p st)
  then String.concat ", " (selectedLabels p st)
  else EmptyString.

(** [handleTriggerKeyDown]. *)
Definition handleTriggerKeyDown (p : Props) (st : State) (key : string)
  : State :=
  if propDisabled p then st
  else if ((key =? "Enter") || (key =? " ") || (key =? "ArrowDown")
           || (key =? "ArrowUp"))%string
  then handleOpen p st
  else if (key =? "Escape")%string then
    if isOpen st then handleClose st else st
  else st.

End InputDropdown.

(* ================================================================== *)
(** * shared/context/ThemeContext *)
(* ================================================================== *)

Module ThemeContext.

Inductive ThemeMode : Type := light | dark | system.

Definition modeName (mode : ThemeMode) : string :=
  match mode with
  | light => "light"
  | dark => "dark"
  | system => "system"
  end.

(** [localStorage]: its items by key, and whether reading or writing
    throws. *)
Record Storage : Type := mkStorage {
  items : string -> option string;
  getItemThrows : bool;
  setItemThrows : bool
}.

(** The state of the provider.  [mode] holds whatever string the storage
    had, cast to [ThemeMode]. *)
Record Theme : Type := mkTheme {
  mode : string;
  isDark : bool
}.

(** The initializer of the [mode] state. *)
Definition initialMode (hasWindow : bool) (storage : Storage)
  (storageKey : string) (defaultMode : ThemeMode) : string :=
  if negb hasWindow then modeName defaultMode
  else if getItemThrows storage then modeName defaultMode
  else match items storage storageKey with
       | Some stored =>
           if JsString.truthy stored then stored else modeName defaultMode
       | None => modeName defaultMode
       end.

(** [updateDarkMode], run by the effect on [mode]. *)
Definition updateDarkMode (systemDark : bool) (th : Theme) : Theme :=
  if (mode th =? "system")%string then mkTheme (mode th) systemDark
  else mkTheme (mode th) (mode th =? "dark")%string.

Definition setItem (storage : Storage) (key val : string) : Storage :=
  if setItemThrows storage then storage
  else mkStorage
         (fun k => if (k =? key)%string then Some val else items storage k)
         (getItemThrows storage) (setItemThrows storage).

(** [setMode]: the state and the storage after the call. *)
Definition setMode (storageKey : string) (newMode : ThemeMode)
  (th : Theme) (storage : Storage) : Theme * Storage :=
  (mkTheme (modeName newMode) (isDark th),
   setItem storage storageKey (modeName newMode)).

Definition toggleMode (storageKey : string) (th : Theme) (storage : Storage)
  : Theme * Storage :=
  setMode storageKey (if isDark th then light else dark) th storage.

(** A render after [before]: the effect on [mode] runs when [mode]
    changed. *)
Definition rerender (systemDark : bool) (before th : Theme) : Theme :=
  if (mode th =? mode before)%string then th
  else updateDarkMode systemDark th.

(** [toggleMode] and the render that follows it. *)
Definition toggleAndRender (storageKey : string) (systemDark : bool)
  (th : Theme) (storage : Storage) : Theme * Storage :=
  (rerender systemDark th (fst (toggleMode storageKey th storage)),
   snd (toggleMode storageKey th storage)).

End ThemeContext.

(* ================================================================== *)
(** * The properties, in the words of the specification *)
(* ================================================================== *)

Module Spec.

Import JsString JsArray.

(** Two characters are the same letter when they are equal or one is the
    capital of the other. *)
Inductive sameLetter : ascii -> ascii -> Prop :=
| same_exact (c : ascii) : sameLetter c c
| same_upper_lower (c : ascii) :
    isUpperCase c = true -> sameLetter c (lowerChar c)
| same_lower_upper (c : ascii) :
    isUpperCase c = true -> sameLetter (lowerChar c) c.

(** Two strings that differ in letter case only. *)
Inductive sameIgnoringCase : string -> string -> Prop :=
| sic_empty : sameIgnoringCase EmptyString EmptyString
| sic_char (c d : ascii) (s t : string) :
    sameLetter c d -> sameIgnoringCase s t ->
    sameIgnoringCase (String c s) (String d t).

(** [text] contains [query] as a case-insensitive substring. *)
Definition containsIgnoringCase (text query : string) : Prop :=
  exists before mid after : string,
    text = (before ++ mid ++ after)%string /\ sameIgnoringCase mid query.

(** The label, the value or the description contains the query. *)
Definition matchesQuery (query : string) (o : Option) : Prop :=
  containsIgnoringCase (label o) query
  \/ containsIgnoringCase (value o) query
  \/ exists d, description o = Some d /\ containsIgnoringCase d query.


(** Position [i] holds an option that is not disabled. *)
Definition enabledAt (options : list Option) (i : Z) : Prop :=
  exists o, get options i = Some o /\ isDisabled o = false.

(** [j] is the next non-disabled position after [prev] in list order,
    wrapping to the first one when none follows [prev]. *)
Definition nextEnabled (options : list Option) (prev j : Z) : Prop :=
  enabledAt options j
  /\ ((prev < j /\ forall i, prev < i < j -> ~ enabledAt options i)
      \/ ((forall i, prev < i -> ~ enabledAt options i)
          /\ forall i, i < j -> ~ enabledAt options i)).

(** [j] is the previous non-disabled position before [prev], wrapping to
    the last one when none precedes [prev]. *)
Definition previousEnabled (options : list Option) (prev j : Z) : Prop :=
  enabledAt options j
  /\ ((j < prev /\ forall i, j < i < prev -> ~ enabledAt options i)
      \/ ((forall i, i < prev -> ~ enabledAt options i)
          /\ forall i, j < i -> ~ enabledAt options i)).

(** Row [i], of height [itemHeight], meets the pixel range [lo .. hi). *)
Definition rowIntersects (itemHeight lo hi i : Z) : Prop :=
  i * itemHeight < hi /\ lo < (i + 1) * itemHeight.

(** The selected options other than [option], in encounter order. *)
Definition others (option : Option) (selection : list Option)
  : list Option :=
  filter (fun item => negb (value item =? value option)%string) selection.

(** The same set of selected values. *)
Definition sameValues (a b : list Option) : Prop :=
  forall v : string, In v (map value a) <-> In v (map value b).

End Spec.

(* ================================================================== *)
(** * Sample data *)
(* ================================================================== *)

Module Sample.

Definition apple : Option :=
  mkOption 0 "Apple" "apple" None (Some "A red fruit"%string).
Definition banana : Option :=
  mkOption 1 "Banana" "banana" None (Some "A yellow fruit"%string).
Definition cherry : Option :=
  mkOption 2 "Cherry" "cherry" None (Some "A small red fruit"%string).
Definition date : Option := mkOption 3 "Date" "date" (Some true) None.

Definition mockOptions : list Option := [apple; banana; cherry; date].


(** [count] enabled options with the values option-1, option-2, ... *)
Definition generateLargeOptions (count : nat) : list Option :=
  map (fun i =>
         let n := NilEmpty.string_of_uint (Nat.to_uint (S i)) in
         mkOption i ("Option " ++ n) ("option-" ++ n) None
           (Some ("Description for option " ++ n)%string))
    (seq 0 count).

(** An uncontrolled single-select, an uncontrolled multi-select and a
    controlled single-select over [mockOptions]. *)
Definition singleProps : InputDropdown.Props :=
  InputDropdown.mkProps mockOptions Undefined false false true None 240 false
    true.

Definition multiProps : InputDropdown.Props :=
  InputDropdown.mkProps mockOptions Undefined true false true None 240 false
    true.

Definition controlledProps : InputDropdown.Props :=
  InputDropdown.mkProps mockOptions (Single banana) false false true None 240
    false true.

End Sample.

(* ================================================================== *)
(** * Vocabulary of the proofs *)
(* ================================================================== *)

Module Positions.

(** The positions of the options that are not disabled, ascending, the
    head of the list counted as position [i]. *)
Fixpoint enabledFrom (options : list Option) (i : Z) : list Z :=
  match options with
  | [] => []
  | o :: rest =>
      if negb (isDisabled o) then i :: enabledFrom rest (i + 1)
      else enabledFrom rest (i + 1)
  end.

Definition enabledPositions (options : list Option) : list Z :=
  enabledFrom options 0.

(** The place of [prev] in a list of positions counted from [i], or -1. *)
Fixpoint placeFrom (positions : list Z) (prev i : Z) : Z :=
  match positions with
  | [] => -1
  | e :: rest => if e =? prev then i else placeFrom rest prev (i + 1)
  end.

(** [positions[k]], with -1 for [undefined]. *)
Definition positionAt (positions : list Z) (k : Z) : Z :=
  match JsArray.get positions k with
  | Some e => e
  | None => -1
  end.

(** The position after [prev] in [positions], cyclically; the first one
    when [prev] is not among them. *)
Definition forward (positions : list Z) (prev : Z) : Z :=
  positionAt positions
    (if placeFrom positions prev 0 <? JsArray.len positions - 1
     then placeFrom positions prev 0 + 1
     else 0).

(** The position before [prev] in [positions], cyclically; the last one
    when [prev] is not among them. *)
Definition backward (positions : list Z) (prev : Z) : Z :=
  positionAt positions
    (if 0 <? placeFrom positions prev 0
     then placeFrom positions prev 0 - 1
     else JsArray.len positions - 1).

End Positions.

(* ================================================================== *)
(** * Strings: lemmas *)
(* ================================================================== *)

Section StringLemmas.

Import JsString Spec.
Local Open Scope string_scope.

Lemma prefix_app (a s : string) :
  String.prefix a s = true <-> exists rest, s = a ++ rest.
Proof.
  revert s; induction a as [|c a IH]; intros s.
  - split; [intros _; exists s; reflexivity |].
    intros _; destruct s; reflexivity.
  - destruct s as [|d s]; simpl.
    + split; [discriminate | intros [rest H]; discriminate].
    + destruct (ascii_dec c d) as [->|Hne].
      * rewrite IH. split; intros [rest H]; exists rest.
        -- now rewrite H.
        -- now inversion H.
      * split; [discriminate | intros [rest H]; inversion H; congruence].
Qed.

Lemma includes_app (s sub : string) :
  includes s sub = true <-> exists before after, s = before ++ sub ++ after.
Proof.
  induction s as [|c s IH]; cbn [includes].
  - destruct (String.prefix sub "") eqn:Hp.
    + split; [intros _ | reflexivity].
      apply prefix_app in Hp. destruct Hp as [rest H].
      exists "", rest. exact H.
    + split; [discriminate |].
      intros [before [after H]].
      destruct before; simpl in H.
      * assert (String.prefix sub "" = true)
          by (apply prefix_app; exists after; exact H).
        congruence.
      * discriminate.
  - destruct (String.prefix sub (String c s)) eqn:Hp.
    + split; [intros _ | reflexivity].
      apply prefix_app in Hp. destruct Hp as [rest H].
      exists "", rest. exact H.
    + rewrite IH. split.
      * intros [before [after H]]. exists (String c before), after.
        simpl. now rewrite H.
      * intros [before [after H]].
        destruct before as [|d before]; simpl in H.
        -- assert (String.prefix sub (String c s) = true)
             by (apply prefix_app; exists after; exact H).
           congruence.
        -- inversion H. exists before, after. reflexivity.
Qed.

Lemma toLowerCase_app (a b : string) :
  toLowerCase (a ++ b) = toLowerCase a ++ toLowerCase b.
Proof. induction a as [|c a IH]; simpl; [reflexivity | now rewrite IH]. Qed.

Lemma toLowerCase_split (t a b : string) :
  toLowerCase t = a ++ b ->
  exists ta tb, t = ta ++ tb /\ toLowerCase ta = a /\ toLowerCase tb = b.
Proof.
  revert t; induction a as [|c a IH]; intros t H; simpl in H.
  - exists "", t. auto.
  - destruct t as [|d t]; simpl in H; [discriminate |].
    inversion H as [[Hc Ht]].
    destruct (IH t Ht) as [ta [tb [-> [Ha Hb]]]].
    exists (String d ta), tb. simpl. rewrite Ha. auto.
Qed.

Lemma isUpperCase_bound (c : ascii) :
  isUpperCase c = true -> (nat_of_ascii c + 32 < 256)%nat.
Proof.
  unfold isUpperCase. intros H.
  apply orb_true_iff in H. destruct H as [H|H].
  - apply andb_true_iff in H. destruct H as [_ H].
    apply Nat.leb_le in H. lia.
  - apply andb_true_iff in H. destruct H as [H _].
    apply andb_true_iff in H. destruct H as [_ H].
    apply Nat.leb_le in H. lia.
Qed.

Lemma lowerChar_not_upper (c : ascii) :
  isUpperCase c = true -> isUpperCase (lowerChar c) = false.
Proof.
  intros H. pose proof (isUpperCase_bound c H) as Hb.
  unfold lowerChar. rewrite H.
  unfold isUpperCase in *. rewrite nat_ascii_embedding by exact Hb.
  set (n := nat_of_ascii c) in *.
  apply orb_true_iff in H.
  apply orb_false_iff. split.
  - apply andb_false_iff.
    destruct H as [H|H].
    + apply andb_true_iff in H. destruct H as [H1 H2].
      apply Nat.leb_le in H1. right. apply Nat.leb_gt. lia.
    + apply andb_true_iff in H. destruct H as [H _].
      apply andb_true_iff in H. destruct H as [H1 _].
      apply Nat.leb_le in H1. right. apply Nat.leb_gt. lia.
  - apply andb_false_iff. left. apply andb_false_iff.
    destruct H as [H|H].
    + apply andb_true_iff in H. destruct H as [_ H2].
      apply Nat.leb_le in H2. left. apply Nat.leb_gt. lia.
    + apply andb_true_iff in H. destruct H as [H _].
      apply andb_true_iff in H. destruct H as [H1 _].
      apply Nat.leb_le in H1. right. apply Nat.leb_gt. lia.
Qed.

Lemma lowerChar_idempotent (c : ascii) :
  lowerChar (lowerChar c) = lowerChar c.
Proof.
  destruct (isUpperCase c) eqn:H.
  - pose proof (lowerChar_not_upper c H) as Hn.
    unfold lowerChar at 1. now rewrite Hn.
  - unfold lowerChar. now rewrite H, H.
Qed.

Lemma lowerChar_injective_upper (c d : ascii) :
  isUpperCase c = true -> isUpperCase d = true ->
  lowerChar c = lowerChar d -> c = d.
Proof.
  intros Hc Hd H. unfold lowerChar in H. rewrite Hc, Hd in H.
  apply (f_equal nat_of_ascii) in H.
  rewrite !nat_ascii_embedding in H
    by (apply isUpperCase_bound; assumption).
  rewrite <- (ascii_nat_embedding c), <- (ascii_nat_embedding d).
  f_equal. lia.
Qed.

Lemma sameLetter_lowerChar (c d : ascii) :
  sameLetter c d <-> lowerChar c = lowerChar d.
Proof.
  split.
  - intros H; destruct H.
    + reflexivity.
    + symmetry. apply lowerChar_idempotent.
    + apply lowerChar_idempotent.
  - intros H.
    destruct (isUpperCase c) eqn:Hc, (isUpperCase d) eqn:Hd.
    + rewrite (lowerChar_injective_upper c d Hc Hd H). constructor.
    + assert (d = lowerChar c) as ->
          by (rewrite H; unfold lowerChar; now rewrite Hd).
      now constructor.
    + assert (c = lowerChar d) as ->
          by (rewrite <- H; unfold lowerChar; now rewrite Hc).
      now constructor.
    + unfold lowerChar in H. rewrite Hc, Hd in H. subst. constructor.
Qed.

Lemma sameIgnoringCase_toLowerCase (a b : string) :
  sameIgnoringCase a b <-> toLowerCase a = toLowerCase b.
Proof.
  split.
  - induction 1 as [|c d s t Hcd _ IH]; simpl; [reflexivity |].
    apply sameLetter_lowerChar in Hcd. now rewrite Hcd, IH.
  - revert b; induction a as [|c a IH]; intros [|d b] H; simpl in H;
      try discriminate.
    + constructor.
    + inversion H. constructor.
      * now apply sameLetter_lowerChar.
      * now apply IH.
Qed.

(** The test of [filterOptions] on one text decides the case-insensitive
    substring relation. *)
Lemma includes_toLowerCase (text query : string) :
  includes (toLowerCase text) (toLowerCase query) = true
  <-> containsIgnoringCase text query.
Proof.
  rewrite includes_app. unfold containsIgnoringCase. split.
  - intros [before [after H]].
    apply toLowerCase_split in H. destruct H as [tb [rest [-> [Hb H]]]].
    apply toLowerCase_split in H. destruct H as [mid [ta [-> [Hm Ha]]]].
    exists tb, mid, ta. split; [reflexivity |].
    now apply sameIgnoringCase_toLowerCase.
  - intros [before [mid [after [-> H]]]].
    apply sameIgnoringCase_toLowerCase in H.
    exists (toLowerCase before), (toLowerCase after).
    now rewrite !toLowerCase_app, H.
Qed.

Lemma trimStart_allWhiteSpace (s : string) :
  allWhiteSpace s = true -> trimStart s = "".
Proof.
  induction s as [|c s IH]; simpl; [reflexivity |].
  intros H. apply andb_true_iff in H. destruct H as [Hc Hs].
  rewrite Hc. now apply IH.
Qed.

Lemma trimEnd_keeps_first (c : ascii) (s : string) :
  isWhiteSpace c = false -> truthy (trimEnd (String c s)) = true.
Proof.
  intros Hc. simpl. destruct (trimEnd s); [rewrite Hc |]; reflexivity.
Qed.

Lemma trimStart_first (s : string) :
  allWhiteSpace s = false ->
  exists c rest, trimStart s = String c rest /\ isWhiteSpace c = false.
Proof.
  induction s as [|c s IH]; simpl; [discriminate |].
  intros H. destruct (isWhiteSpace c) eqn:Hc.
  - simpl in H. now apply IH.
  - exists c, s. auto.
Qed.

(** [!query.trim()] holds exactly for the queries made of white space. *)
Lemma truthy_trim (query : string) :
  truthy (trim query) = negb (allWhiteSpace query).
Proof.
  unfold trim. destruct (allWhiteSpace query) eqn:H.
  - now rewrite trimStart_allWhiteSpace.
  - destruct (trimStart_first query H) as [c [rest [-> Hc]]].
    now apply trimEnd_keeps_first.
Qed.

End StringLemmas.

(* ================================================================== *)
(** * filterOptions and getSelectedOptionLabels *)
(* ================================================================== *)

Section Utils.

Import JsString Spec.
Local Open Scope string_scope.


Lemma filter_twice {A : Type} (p : A -> bool) (l : list A) :
  filter p (filter p l) = filter p l.
Proof.
  induction l as [|x l IH]; simpl; [reflexivity |].
  destruct (p x) eqn:Hx; simpl; [rewrite Hx, IH |]; auto.
Qed.

Lemma matchesLowercaseQuery_spec (query : string) (o : Option) :
  matchesLowercaseQuery (toLowerCase query) o = true <-> matchesQuery query o.
Proof.
  unfold matchesLowercaseQuery, matchesQuery.
  rewrite !orb_true_iff, !includes_toLowerCase.
  split.
  - intros [[H|H]|H]; auto.
    destruct (description o) as [d|]; [| discriminate].
    right; right. exists d. split; [reflexivity |].
    now apply includes_toLowerCase.
  - intros [H|[H|[d [Hd H]]]]; auto.
    right. rewrite Hd. now apply includes_toLowerCase.
Qed.

Lemma filterOptions_blank (options : list Option) (query : string) :
  allWhiteSpace query = true -> filterOptions options query = options.
Proof.
  intros H. unfold filterOptions. now rewrite truthy_trim, H.
Qed.

Lemma filterOptions_not_blank (options : list Option) (query : string) :
  allWhiteSpace query = false ->
  filterOptions options query
  = filter (matchesLowercaseQuery (toLowerCase query)) options.
Proof.
  intros H. unfold filterOptions. now rewrite truthy_trim, H.
Qed.




(** The description is searched as well, and letter case is ignored. *)
Example filterOptions_by_description :
  filterOptions Sample.mockOptions "RED" = [Sample.apple; Sample.cherry].
Proof. reflexivity. Qed.

(** A query is not trimmed before it is searched for. *)
Example filterOptions_leading_space :
  filterOptions Sample.mockOptions " red" = [Sample.apple; Sample.cherry]
  /\ filterOptions Sample.mockOptions " app" = [].
Proof. split; reflexivity. Qed.

(** C6: filtering is idempotent: filtering the output again with the
    same query returns that output unchanged. *)
Theorem filterOptions_idempotent (options : list Option) (query : string) :
  filterOptions (filterOptions options query) query
  = filterOptions options query.
Proof.
  unfold filterOptions.
  destruct (negb (truthy (trim query))) eqn:H; [reflexivity |].
  apply filter_twice.
Qed.

(** C9: a query made of white space only, not just the empty one,
    returns the input option list itself. *)
Theorem filterOptions_whitespace_query (options : list Option)
  (query : string) :
  allWhiteSpace query = true -> filterOptions options query = options.
Proof. apply filterOptions_blank. Qed.

Lemma filterOptions_whitespace_query_witness :
  filterOptions Sample.mockOptions "   " = Sample.mockOptions.
Proof.
  exact (filterOptions_whitespace_query Sample.mockOptions "   " eq_refl).
Defined.

(** C10: the selected labels are empty for an absent value and for a
    value whose shape disagrees with the mode flag; when the shapes
    agree they are the labels in the order of the selection. *)
Theorem getSelectedOptionLabels_by_shape :
  (forall multiple, getSelectedOptionLabels Undefined multiple = [])
  /\ (forall l, getSelectedOptionLabels (Multi l) false = [])
  /\ (forall o, getSelectedOptionLabels (Single o) true = [])
  /\ (forall l, getSelectedOptionLabels (Multi l) true = map label l)
  /\ (forall o, getSelectedOptionLabels (Single o) false = [label o]).
Proof. repeat split. Qed.

End Utils.

(* ================================================================== *)
(** * Arrays: lemmas *)
(* ================================================================== *)

Section ArrayLemmas.

Import JsArray.

Lemma get_nat {A : Type} (l : list A) (k : nat) :
  get l (Z.of_nat k) = nth_error l k.
Proof.
  unfold get. destruct (Z.of_nat k <? 0) eqn:H.
  - apply Z.ltb_lt in H. lia.
  - now rewrite Nat2Z.id.
Qed.

Lemma get_negative {A : Type} (l : list A) (i : Z) :
  i < 0 -> get l i = None.
Proof. intros H. unfold get. apply Z.ltb_lt in H. now rewrite H. Qed.

Lemma get_beyond {A : Type} (l : list A) (i : Z) :
  len l <= i -> get l i = None.
Proof.
  intros H. unfold get, len in *. destruct (i <? 0); [reflexivity |].
  apply nth_error_None. lia.
Qed.

Lemma get_Some_range {A : Type} (l : list A) (i : Z) (x : A) :
  get l i = Some x -> 0 <= i < len l.
Proof.
  intros H. destruct (Z_lt_dec i 0) as [Hn|Hn].
  - rewrite get_negative in H by exact Hn. discriminate.
  - destruct (Z_le_dec (len l) i) as [Hb|Hb].
    + rewrite get_beyond in H by exact Hb. discriminate.
    + lia.
Qed.

Lemma get_Some_nat {A : Type} (l : list A) (i : Z) (x : A) :
  get l i = Some x -> exists k, i = Z.of_nat k /\ nth_error l k = Some x.
Proof.
  intros H. pose proof (get_Some_range l i x H) as Hr.
  exists (Z.to_nat i). split; [lia |].
  rewrite <- get_nat. now rewrite Z2Nat.id by lia.
Qed.

Lemma get_cons {A : Type} (x : A) (l : list A) (i : Z) :
  get (x :: l) i = if i =? 0 then Some x else get l (i - 1).
Proof.
  destruct (Z.eqb_spec i 0) as [->|Hne]; [reflexivity |].
  destruct (Z_lt_dec i 0) as [Hn|Hn].
  - now rewrite !get_negative by lia.
  - replace i with (Z.of_nat (S (Z.to_nat (i - 1)))) at 1 by lia.
    rewrite get_nat. simpl. rewrite <- get_nat. f_equal. lia.
Qed.

Lemma len_cons {A : Type} (x : A) (l : list A) : len (x :: l) = len l + 1.
Proof. unfold len. simpl List.length. lia. Qed.

Lemma len_app {A : Type} (l1 l2 : list A) :
  len (l1 ++ l2) = len l1 + len l2.
Proof. unfold len. rewrite length_app. lia. Qed.

Lemma len_nonneg {A : Type} (l : list A) : 0 <= len l.
Proof. unfold len. lia. Qed.

End ArrayLemmas.

(* ================================================================== *)
(** * useKeyboardNavigation: positions of the enabled options *)
(* ================================================================== *)

Section EnabledPositions.

Import JsArray Hooks Spec Positions.

Lemma sameObject_refl (o : Option) : sameObject o o = true.
Proof. unfold sameObject. apply Nat.eqb_refl. Qed.

Lemma indexOfObject_range (l : list Option) (x : Option) :
  -1 <= indexOfObject l x < len l.
Proof.
  induction l as [|y l IH]; simpl.
  - unfold len. simpl. lia.
  - rewrite len_cons. destruct (sameObject y x).
    + pose proof (len_nonneg l). lia.
    + destruct (indexOfObject l x <? 0) eqn:H.
      * pose proof (len_nonneg l). lia.
      * apply Z.ltb_ge in H. lia.
Qed.

(** In a list of distinct objects, the first position of an object is
    the position it is read from. *)
Lemma indexOfObject_first (pre rest : list Option) (o : Option) :
  (forall y, In y pre -> ident y <> ident o) ->
  indexOfObject (pre ++ o :: rest) o = len pre.
Proof.
  intros Hpre. induction pre as [|y pre IH]; simpl.
  - now rewrite sameObject_refl.
  - assert (sameObject y o = false) as ->.
    { unfold sameObject. apply Nat.eqb_neq. apply Hpre. now left. }
    rewrite IH by (intros z Hz; apply Hpre; now right).
    rewrite len_cons. pose proof (len_nonneg pre) as Hl.
    destruct (len pre <? 0) eqn:H; [apply Z.ltb_lt in H; lia | reflexivity].
Qed.

Lemma indexOf_available_from (rest pre : list Option) :
  NoDup (map ident (pre ++ rest)) ->
  map (indexOfObject (pre ++ rest)) (availableOptions rest)
  = enabledFrom rest (len pre).
Proof.
  revert pre. induction rest as [|o rest IH]; intros pre Hnd.
  - reflexivity.
  - assert (Hstep : map (indexOfObject (pre ++ o :: rest))
                      (availableOptions rest)
                    = enabledFrom rest (len pre + 1)).
    { replace (pre ++ o :: rest) with ((pre ++ [o]) ++ rest)
        by (now rewrite <- app_assoc).
      replace (len pre + 1) with (len (pre ++ [o]))
        by (rewrite len_app; reflexivity).
      apply IH. now rewrite <- app_assoc. }
    unfold availableOptions in *. simpl.
    destruct (negb (isDisabled o)); simpl; [| exact Hstep].
    rewrite Hstep. f_equal.
    apply indexOfObject_first.
    intros y Hy Heq.
    rewrite map_app in Hnd. simpl in Hnd.
    apply NoDup_remove_2 in Hnd. apply Hnd.
    apply in_or_app. left. rewrite <- Heq. now apply in_map.
Qed.

(** [options.indexOf] sends the enabled options to their positions. *)
Lemma indexOf_available (options : list Option) :
  NoDup (map ident options) ->
  map (indexOfObject options) (availableOptions options)
  = enabledPositions options.
Proof. intros H. exact (indexOf_available_from options [] H). Qed.

Lemma indexOf_get (options l : list Option) (k : Z) :
  indexOf options (get l k)
  = positionAt (map (indexOfObject options) l) k.
Proof.
  unfold positionAt, get. destruct (k <? 0); [reflexivity |].
  rewrite nth_error_map. now destruct (nth_error l (Z.to_nat k)).
Qed.

Lemma enabledFrom_lower (l : list Option) (i j : Z) :
  In j (enabledFrom l i) -> i <= j.
Proof.
  revert i. induction l as [|o l IH]; intros i H; simpl in H.
  - contradiction.
  - destruct (negb (isDisabled o)).
    + destruct H as [->|H]; [lia | apply IH in H; lia].
    + apply IH in H. lia.
Qed.

Lemma enabledFrom_sorted (l : list Option) (i : Z) :
  StronglySorted Z.lt (enabledFrom l i).
Proof.
  revert i. induction l as [|o l IH]; intros i; simpl.
  - constructor.
  - destruct (negb (isDisabled o)); [| apply IH].
    constructor; [apply IH |].
    apply Forall_forall. intros j Hj. apply enabledFrom_lower in Hj. lia.
Qed.

Lemma enabledFrom_enabledAt (l : list Option) (i j : Z) :
  In j (enabledFrom l i) <-> enabledAt l (j - i).
Proof.
  unfold enabledAt. revert i. induction l as [|o l IH]; intros i; simpl.
  - split; [contradiction |]. intros [x [H _]].
    unfold get in H. destruct (j - i <? 0); [discriminate |].
    now destruct (Z.to_nat (j - i)).
  - assert (Hrest : In j (enabledFrom l (i + 1))
                    <-> exists x, get l (j - i - 1) = Some x
                                  /\ isDisabled x = false).
    { rewrite IH. now replace (j - (i + 1)) with (j - i - 1) by lia. }
    split.
    + intros H.
      assert (Hcase : (j = i /\ isDisabled o = false)
                      \/ In j (enabledFrom l (i + 1))).
      { destruct (isDisabled o); simpl in H; [now right |].
        destruct H as [H|H]; [left; auto | now right]. }
      destruct Hcase as [[-> Ho]|Hin].
      * exists o. rewrite get_cons. now rewrite Z.sub_diag.
      * pose proof (enabledFrom_lower _ _ _ Hin) as Hlow.
        apply Hrest in Hin. destruct Hin as [x [Hx Hd]].
        exists x. rewrite get_cons.
        destruct (Z.eqb_spec (j - i) 0); [lia | auto].
    + intros [x [Hx Hd]]. rewrite get_cons in Hx.
      destruct (Z.eqb_spec (j - i) 0) as [H0|H0].
      * inversion Hx; subst x. rewrite Hd. simpl. left. lia.
      * assert (In j (enabledFrom l (i + 1)))
          by (apply Hrest; exists x; auto).
        destruct (negb (isDisabled o)); [now right | assumption].
Qed.

Lemma enabledPositions_enabledAt (options : list Option) (j : Z) :
  In j (enabledPositions options) <-> enabledAt options j.
Proof.
  unfold enabledPositions. rewrite enabledFrom_enabledAt.
  now rewrite Z.sub_0_r.
Qed.

Lemma enabledPositions_sorted (options : list Option) :
  StronglySorted Z.lt (enabledPositions options).
Proof. apply enabledFrom_sorted. Qed.

Lemma sorted_nth_lt (E : list Z) (a b : nat) (x y : Z) :
  StronglySorted Z.lt E ->
  nth_error E a = Some x -> nth_error E b = Some y ->
  (a < b)%nat -> x < y.
Proof.
  intros Hs. revert a b. induction Hs as [|e E Hs IH Hall];
    intros a b Ha Hb Hlt.
  - now destruct a.
  - destruct b as [|b]; [lia |]. simpl in Hb.
    destruct a as [|a]; simpl in Ha.
    + inversion Ha; subst. rewrite Forall_forall in Hall.
      apply Hall. eapply nth_error_In; eauto.
    + apply (IH a b); auto. lia.
Qed.

Lemma sorted_nth_le (E : list Z) (a b : nat) (x y : Z) :
  StronglySorted Z.lt E ->
  nth_error E a = Some x -> nth_error E b = Some y ->
  (a <= b)%nat -> x <= y.
Proof.
  intros Hs Ha Hb Hle. destruct (Nat.eq_dec a b) as [->|Hne].
  - rewrite Ha in Hb. inversion Hb. lia.
  - pose proof (sorted_nth_lt E a b x y Hs Ha Hb). lia.
Qed.

Lemma sorted_nth_order (E : list Z) (a b : nat) (x y : Z) :
  StronglySorted Z.lt E ->
  nth_error E a = Some x -> nth_error E b = Some y ->
  x < y -> (a < b)%nat.
Proof.
  intros Hs Ha Hb Hlt. destruct (Nat.lt_ge_cases a b) as [H|H]; [exact H |].
  pose proof (sorted_nth_le E b a y x Hs Hb Ha H). lia.
Qed.

Lemma placeFrom_missing (E : list Z) (prev i : Z) :
  ~ In prev E -> placeFrom E prev i = -1.
Proof.
  revert i. induction E as [|e E IH]; intros i H; simpl; [reflexivity |].
  destruct (Z.eqb_spec e prev) as [->|Hne].
  - exfalso. apply H. now left.
  - apply IH. intros Hin. apply H. now right.
Qed.

Lemma placeFrom_found (E : list Z) (prev i : Z) (k : nat) :
  NoDup E -> nth_error E k = Some prev ->
  placeFrom E prev i = i + Z.of_nat k.
Proof.
  revert i k. induction E as [|e E IH]; intros i k Hnd Hk.
  - now destruct k.
  - simpl. inversion Hnd as [|? ? Hnotin Hnd']; subst.
    destruct k as [|k]; simpl in Hk.
    + inversion Hk; subst. rewrite Z.eqb_refl. lia.
    + destruct (Z.eqb_spec e prev) as [->|Hne].
      * exfalso. apply Hnotin. eapply nth_error_In; eauto.
      * rewrite (IH (i + 1) k Hnd' Hk). lia.
Qed.

Lemma findIndexFrom_place (E : list Z) (prev : Z) (l : list Option)
  (q : Option -> Z -> bool) (i : Z) :
  List.length l = List.length E ->
  (forall k e x, nth_error E k = Some e ->
                 q x (i + Z.of_nat k) = (e =? prev)) ->
  findIndexFrom q l i = placeFrom E prev i.
Proof.
  revert E i. induction l as [|x l IH]; intros E i Hlen Hq.
  - destruct E; [reflexivity | discriminate].
  - destruct E as [|e E]; [discriminate |]. simpl.
    rewrite <- (Hq 0%nat e x eq_refl).
    replace (i + Z.of_nat 0) with i by lia.
    destruct (q x i); [reflexivity |].
    apply IH; [simpl in Hlen; lia |].
    intros k e' x' Hk.
    rewrite <- (Hq (S k) e' x' Hk). f_equal. lia.
Qed.

Lemma StronglySorted_lt_NoDup (E : list Z) :
  StronglySorted Z.lt E -> NoDup E.
Proof.
  induction 1 as [|e E Hs IH Hall]; constructor; [| exact IH].
  intros Hin. rewrite Forall_forall in Hall. apply Hall in Hin. lia.
Qed.

End EnabledPositions.

(* ================================================================== *)
(** * useKeyboardNavigation: the arrow keys *)
(* ================================================================== *)

Section ArrowKeys.

Import JsArray Hooks Spec Positions.

Lemma positionAt_nat (E : list Z) (k : nat) (e : Z) :
  nth_error E k = Some e -> positionAt E (Z.of_nat k) = e.
Proof. intros H. unfold positionAt. now rewrite get_nat, H. Qed.

Lemma forward_spec (E : list Z) (prev : Z) :
  StronglySorted Z.lt E -> E <> [] ->
  exists m j,
    nth_error E m = Some j /\ forward E prev = j
    /\ ((exists k, nth_error E k = Some prev /\ m = S k)
        \/ (m = 0%nat
            /\ forall k, nth_error E k = Some prev -> S k = List.length E)).
Proof.
  intros Hs Hne. pose proof (StronglySorted_lt_NoDup E Hs) as Hnd.
  unfold forward, len.
  destruct E as [|e0 E']; [contradiction |].
  set (E := e0 :: E') in *.
  destruct (In_dec Z.eq_dec prev E) as [Hin|Hnot].
  - apply In_nth_error in Hin. destruct Hin as [k Hk].
    rewrite (placeFrom_found E prev 0 k Hnd Hk).
    assert (Hlt : (k < List.length E)%nat)
      by (apply nth_error_Some; congruence).
    destruct (0 + Z.of_nat k <? Z.of_nat (List.length E) - 1) eqn:Hc.
    + apply Z.ltb_lt in Hc.
      destruct (nth_error E (S k)) as [j|] eqn:Hj.
      * exists (S k), j. split; [exact Hj |]. split.
        -- replace (0 + Z.of_nat k + 1) with (Z.of_nat (S k)) by lia.
           now apply positionAt_nat.
        -- left. exists k. auto.
      * apply nth_error_None in Hj. lia.
    + apply Z.ltb_ge in Hc.
      exists 0%nat, e0. split; [reflexivity |]. split; [reflexivity |].
      right. split; [reflexivity |].
      intros k' Hk'.
      assert (k' = k).
      { apply (proj1 (NoDup_nth_error E) Hnd).
        - apply nth_error_Some. congruence.
        - congruence. }
      subst k'. lia.
  - rewrite (placeFrom_missing E prev 0 Hnot).
    assert (Hc : (-1 <? Z.of_nat (List.length E) - 1) = true)
      by (apply Z.ltb_lt; unfold E; simpl List.length; lia).
    rewrite Hc.
    exists 0%nat, e0. split; [reflexivity |]. split; [reflexivity |].
    right. split; [reflexivity |].
    intros k Hk. exfalso. apply Hnot. eapply nth_error_In; eauto.
Qed.

Lemma backward_spec (E : list Z) (prev : Z) :
  StronglySorted Z.lt E -> E <> [] ->
  exists m j,
    nth_error E m = Some j /\ backward E prev = j
    /\ ((exists k, nth_error E k = Some prev /\ k = S m)
        \/ (S m = List.length E
            /\ forall k, nth_error E k = Some prev -> k = 0%nat)).
Proof.
  intros Hs Hne. pose proof (StronglySorted_lt_NoDup E Hs) as Hnd.
  unfold backward, len.
  assert (Hlast : exists j,
             nth_error E (List.length E - 1) = Some j
             /\ positionAt E (Z.of_nat (List.length E) - 1) = j).
  { destruct (nth_error E (List.length E - 1)) as [j|] eqn:Hj.
    - exists j. split; [reflexivity |].
      replace (Z.of_nat (List.length E) - 1)
        with (Z.of_nat (List.length E - 1)).
      + now apply positionAt_nat.
      + destruct E; [contradiction | simpl List.length; lia].
    - apply nth_error_None in Hj.
      destruct E; [contradiction | simpl in Hj; lia]. }
  destruct Hlast as [jl [Hjl Hpl]].
  assert (Hpos : (0 < List.length E)%nat)
    by (destruct E; [contradiction | simpl; lia]).
  destruct (In_dec Z.eq_dec prev E) as [Hin|Hnot].
  - apply In_nth_error in Hin. destruct Hin as [k Hk].
    rewrite (placeFrom_found E prev 0 k Hnd Hk).
    assert (Huniq : forall k', nth_error E k' = Some prev -> k' = k).
    { intros k' Hk'. apply (proj1 (NoDup_nth_error E) Hnd).
      - apply nth_error_Some. congruence.
      - congruence. }
    destruct (0 <? 0 + Z.of_nat k) eqn:Hc.
    + apply Z.ltb_lt in Hc.
      destruct k as [|k]; [lia |].
      destruct (nth_error E k) as [j|] eqn:Hj.
      * exists k, j. split; [exact Hj |]. split.
        -- replace (0 + Z.of_nat (S k) - 1) with (Z.of_nat k) by lia.
           now apply positionAt_nat.
        -- left. exists (S k). auto.
      * apply nth_error_None in Hj.
        assert ((S k < List.length E)%nat)
          by (apply nth_error_Some; congruence).
        lia.
    + apply Z.ltb_ge in Hc.
      exists (List.length E - 1)%nat, jl.
      split; [exact Hjl |]. split; [exact Hpl |].
      right. split; [lia |].
      intros k' Hk'. rewrite (Huniq k' Hk'). lia.
  - rewrite (placeFrom_missing E prev 0 Hnot). simpl (0 <? -1).
    exists (List.length E - 1)%nat, jl.
    split; [exact Hjl |]. split; [exact Hpl |].
    right. split; [lia |].
    intros k Hk. exfalso. apply Hnot. eapply nth_error_In; eauto.
Qed.

Section DistinctObjects.

Variable options : list Option.
Hypothesis distinct : NoDup (map ident options).

Lemma available_positions_length :
  List.length (availableOptions options)
  = List.length (enabledPositions options).
Proof.
  rewrite <- (indexOf_available options distinct). now rewrite length_map.
Qed.

Lemma indexOf_available_at (k : Z) :
  indexOf options (get (availableOptions options) k)
  = positionAt (enabledPositions options) k.
Proof.
  rewrite indexOf_get. now rewrite (indexOf_available options distinct).
Qed.

Lemma currentIndex_place (prev : Z) :
  currentIndex options prev = placeFrom (enabledPositions options) prev 0.
Proof.
  unfold currentIndex, findIndex.
  apply findIndexFrom_place.
  - apply available_positions_length.
  - intros k e x Hk. simpl. rewrite indexOf_available_at.
    now rewrite (positionAt_nat _ _ _ Hk).
Qed.

Lemma arrowDown_forward (prev : Z) :
  arrowDown options prev = forward (enabledPositions options) prev.
Proof.
  unfold arrowDown, nextIndex, forward.
  rewrite indexOf_available_at, currentIndex_place.
  unfold len. now rewrite available_positions_length.
Qed.

Lemma arrowUp_backward (prev : Z) :
  arrowUp options prev = backward (enabledPositions options) prev.
Proof.
  unfold arrowUp, prevIndex, backward.
  rewrite indexOf_available_at, currentIndex_place.
  unfold len. now rewrite available_positions_length.
Qed.

End DistinctObjects.

End ArrowKeys.

Section ArrowKeysSpec.

Import JsArray Hooks Spec Positions.

Lemma enabledAt_place (options : list Option) (i : Z) :
  enabledAt options i
  <-> exists k, nth_error (enabledPositions options) k = Some i.
Proof.
  rewrite <- enabledPositions_enabledAt. split.
  - apply In_nth_error.
  - intros [k Hk]. eapply nth_error_In; eauto.
Qed.

Lemma enabledAt_range (options : list Option) (i : Z) :
  enabledAt options i -> 0 <= i < len options.
Proof. intros [o [Ho _]]. eapply get_Some_range; eauto. Qed.

Lemma get_None_range {A : Type} (l : list A) (i : Z) :
  get l i = None -> i < 0 \/ len l <= i.
Proof.
  intros H. destruct (Z_lt_dec i 0) as [Hn|Hn]; [now left | right].
  unfold get in H. destruct (i <? 0) eqn:Hi; [apply Z.ltb_lt in Hi; lia |].
  apply nth_error_None in H. unfold len. lia.
Qed.

Lemma none_before_first (options : list Option) (j : Z) :
  nth_error (enabledPositions options) 0 = Some j ->
  forall i, i < j -> ~ enabledAt options i.
Proof.
  intros Hj i Hlt Hen. apply enabledAt_place in Hen. destruct Hen as [k Hk].
  pose proof (sorted_nth_le _ 0 k j i (enabledPositions_sorted options)
                Hj Hk) as Hle.
  lia.
Qed.

Lemma none_after_last (options : list Option) (m : nat) (j : Z) :
  nth_error (enabledPositions options) m = Some j ->
  S m = List.length (enabledPositions options) ->
  forall i, j < i -> ~ enabledAt options i.
Proof.
  intros Hj Hm i Hlt Hen. apply enabledAt_place in Hen.
  destruct Hen as [k Hk].
  assert ((k < List.length (enabledPositions options))%nat)
    by (apply nth_error_Some; congruence).
  pose proof (sorted_nth_le _ k m i j (enabledPositions_sorted options)
                Hk Hj) as Hle.
  lia.
Qed.

Lemma enabledPositions_nonempty (options : list Option) :
  (exists i, enabledAt options i) -> enabledPositions options <> [].
Proof.
  intros [i Hi] Hnil. apply enabledPositions_enabledAt in Hi.
  rewrite Hnil in Hi. contradiction.
Qed.

Lemma forward_next (options : list Option) (prev : Z) :
  (exists i, enabledAt options i) ->
  (forall o, get options prev = Some o -> isDisabled o = false) ->
  nextEnabled options prev (forward (enabledPositions options) prev).
Proof.
  intros Hex Hprev.
  pose proof (enabledPositions_sorted options) as Hs.
  destruct (forward_spec _ prev Hs (enabledPositions_nonempty _ Hex))
    as [m [j [Hj [-> Hcase]]]].
  assert (Hen : enabledAt options j)
    by (apply enabledAt_place; eauto).
  split; [exact Hen |].
  destruct Hcase as [[k [Hk ->]]|[-> Hlast]].
  - left. split.
    + apply (sorted_nth_lt _ k (S k) prev j Hs Hk Hj). lia.
    + intros i [Hlo Hhi] Hi. apply enabledAt_place in Hi.
      destruct Hi as [mi Hmi].
      pose proof (sorted_nth_order _ k mi prev i Hs Hk Hmi Hlo).
      pose proof (sorted_nth_order _ mi (S k) i j Hs Hmi Hj Hhi).
      lia.
  - destruct (get options prev) as [o|] eqn:Hget.
    + right. split; [| now apply none_before_first].
      assert (Hp : enabledAt options prev)
        by (exists o; split; [exact Hget | now apply Hprev]).
      apply enabledAt_place in Hp. destruct Hp as [k Hk].
      apply (none_after_last options k prev Hk (Hlast k Hk)).
    + apply get_None_range in Hget. destruct Hget as [Hneg|Hbig].
      * left. pose proof (enabledAt_range _ _ Hen). split; [lia |].
        intros i [_ Hhi]. now apply (none_before_first options j Hj).
      * right. split; [| now apply none_before_first].
        intros i Hi Hc. apply enabledAt_range in Hc. lia.
Qed.

Lemma backward_previous (options : list Option) (prev : Z) :
  (exists i, enabledAt options i) ->
  (forall o, get options prev = Some o -> isDisabled o = false) ->
  previousEnabled options prev (backward (enabledPositions options) prev).
Proof.
  intros Hex Hprev.
  pose proof (enabledPositions_sorted options) as Hs.
  destruct (backward_spec _ prev Hs (enabledPositions_nonempty _ Hex))
    as [m [j [Hj [-> Hcase]]]].
  assert (Hen : enabledAt options j)
    by (apply enabledAt_place; eauto).
  split; [exact Hen |].
  destruct Hcase as [[k [Hk ->]]|[Hm Hfirst]].
  - left. split.
    + apply (sorted_nth_lt _ m (S m) j prev Hs Hj Hk). lia.
    + intros i [Hlo Hhi] Hi. apply enabledAt_place in Hi.
      destruct Hi as [mi Hmi].
      pose proof (sorted_nth_order _ m mi j i Hs Hj Hmi Hlo).
      pose proof (sorted_nth_order _ mi (S m) i prev Hs Hmi Hk Hhi).
      lia.
  - destruct (get options prev) as [o|] eqn:Hget.
    + right. split; [| now apply (none_after_last options m j)].
      assert (Hp : enabledAt options prev)
        by (exists o; split; [exact Hget | now apply Hprev]).
      apply enabledAt_place in Hp. destruct Hp as [k Hk].
      pose proof (Hfirst k Hk) as ->.
      now apply none_before_first.
    + apply get_None_range in Hget. destruct Hget as [Hneg|Hbig].
      * right. split; [| now apply (none_after_last options m j)].
        intros i Hi Hc. apply enabledAt_range in Hc. lia.
      * left. pose proof (enabledAt_range _ _ Hen). split; [lia |].
        intros i [Hlo _]. now apply (none_after_last options m j Hj Hm).
Qed.

Lemma forward_enabled (options : list Option) (prev : Z) :
  (exists i, enabledAt options i) ->
  enabledAt options (forward (enabledPositions options) prev).
Proof.
  intros Hex.
  destruct (forward_spec _ prev (enabledPositions_sorted options)
              (enabledPositions_nonempty _ Hex)) as [m [j [Hj [-> _]]]].
  apply enabledAt_place; eauto.
Qed.

Lemma backward_enabled (options : list Option) (prev : Z) :
  (exists i, enabledAt options i) ->
  enabledAt options (backward (enabledPositions options) prev).
Proof.
  intros Hex.
  destruct (backward_spec _ prev (enabledPositions_sorted options)
              (enabledPositions_nonempty _ Hex)) as [m [j [Hj [-> _]]]].
  apply enabledAt_place; eauto.
Qed.




End ArrowKeysSpec.

Section ArrowKeysExamples.

Import JsArray Hooks Spec.

Lemma mockOptions_distinct : NoDup (map ident Sample.mockOptions).
Proof.
  simpl. repeat (constructor; [simpl; intuition discriminate |]).
  constructor.
Qed.

Lemma mockOptions_enabled : exists i, enabledAt Sample.mockOptions i.
Proof. exists 0. exists Sample.apple. split; reflexivity. Qed.


(** Past the last enabled option ArrowDown wraps to the first one. *)
Example arrowDown_wraps : arrowDown Sample.mockOptions 2 = 0.
Proof. reflexivity. Qed.

Example arrowUp_wraps : arrowUp Sample.mockOptions 0 = 2.
Proof. reflexivity. Qed.

(** The same object held twice is always found at its first position:
    the highlight cannot reach the second one. *)
Example arrowDown_same_object_twice :
  arrowDown [Sample.apple; Sample.apple] 0 = 0.
Proof. reflexivity. Qed.


End ArrowKeysExamples.

(* ================================================================== *)
(** * useKeyboardNavigation: Enter, Space and the reset effect *)
(* ================================================================== *)

Section SelectAndReset.

Import JsArray Hooks.
Local Open Scope string_scope.

Lemma isDisabled_true (o : Option) :
  disabled o = Some true -> isDisabled o = true.
Proof. unfold isDisabled. now intros ->. Qed.

Lemma enter_disabled (options : list Option) (highlightedIndex : Z)
  (o : Option) :
  get options highlightedIndex = Some o -> disabled o = Some true ->
  enter options highlightedIndex = Normal [].
Proof.
  intros Hget Hd. unfold enter. rewrite Hget.
  rewrite (isDisabled_true o Hd). simpl.
  now destruct ((0 <=? highlightedIndex)%Z
                && (highlightedIndex <? len options)%Z).
Qed.

Lemma handleSelect_disabled (p : InputDropdown.Props)
  (st : InputDropdown.State) (o : Option) :
  disabled o = Some true -> InputDropdown.handleSelect p st o = (st, []).
Proof.
  intros Hd. unfold InputDropdown.handleSelect.
  now rewrite (isDisabled_true o Hd).
Qed.

(** C2: with the dropdown open and the highlighted index on an option
    whose [disabled] is true, Enter and Space invoke no callback, so the
    selection callback is not called, no change is notified and the
    component's state, its value included, stays as it was; the
    selection handler itself ignores a disabled option. *)
Theorem disabled_option_is_not_selected (options : list Option)
  (highlightedIndex : Z) (o : Option) (key : string) :
  key = "Enter" \/ key = " " ->
  get options highlightedIndex = Some o ->
  disabled o = Some true ->
  (forall onOpenGiven,
      handleKeyDown options true onOpenGiven highlightedIndex key
      = Normal (mkOutcome true [] highlightedIndex))
  /\ (forall p st,
         InputDropdown.filteredOptions p st = options ->
         InputDropdown.isOpen st = true ->
         InputDropdown.onKeyDown p st highlightedIndex key
         = Normal (st, []))
  /\ (forall p st, InputDropdown.handleSelect p st o = (st, [])).
Proof.
  intros Hkey Hget Hd.
  assert (Hhook : forall g,
             handleKeyDown options true g highlightedIndex key
             = Normal (mkOutcome true [] highlightedIndex)).
  { intros g. unfold handleKeyDown.
    destruct Hkey as [-> | ->]; simpl;
      now rewrite (enter_disabled options highlightedIndex o Hget Hd). }
  split; [exact Hhook |]. split.
  - intros p st Hopts Hopen. unfold InputDropdown.onKeyDown.
    rewrite Hopts, Hopen, Hhook. reflexivity.
  - intros p st. now apply handleSelect_disabled.
Qed.

Lemma disabled_option_is_not_selected_witness :
  (forall onOpenGiven,
      handleKeyDown Sample.mockOptions true onOpenGiven 3 "Enter"
      = Normal (mkOutcome true [] 3))
  /\ (forall p st,
         InputDropdown.filteredOptions p st = Sample.mockOptions ->
         InputDropdown.isOpen st = true ->
         InputDropdown.onKeyDown p st 3 "Enter" = Normal (st, []))
  /\ (forall p st, InputDropdown.handleSelect p st Sample.date = (st, [])).
Proof.
  exact (disabled_option_is_not_selected Sample.mockOptions 3 Sample.date
           "Enter" (or_introl eq_refl) eq_refl eq_refl).
Defined.

(** While the list is closed the key handler leaves the highlight. *)
Lemma handleKeyDown_closed (options : list Option) (onOpenGiven : bool)
  (highlightedIndex : Z) (key : string) (out : KeyOutcome) :
  handleKeyDown options false onOpenGiven highlightedIndex key = Normal out ->
  nextHighlighted out = highlightedIndex.
Proof.
  unfold handleKeyDown. simpl.
  destruct ((key =? "ArrowDown") || (key =? "ArrowUp") || (key =? "Enter")
            || (key =? " "));
    intros H; inversion H; reflexivity.
Qed.

Lemma closed_not_highlighted (st : NavState) :
  reachable st -> isOpen st = false -> highlightedIndex st = -1.
Proof.
  induction 1 as [|st st' Hreach IH Hstep]; [reflexivity |].
  destruct Hstep as [st options g key out Hout | st isOpen'];
    simpl; intros Hclosed.
  - rewrite Hclosed in Hout.
    rewrite (handleKeyDown_closed _ _ _ _ _ Hout). now apply IH.
  - subst isOpen'. destruct (isOpen st) eqn:Hopen; simpl.
    + reflexivity.
    + now apply IH.
Qed.

(** C7: in every state the hook reaches through key presses and renders,
    a closed list has no highlighted option (-1), and after every event
    that opens or closes the list the highlighted index is -1: the
    effect resets it when the list closes, and it still has that value
    when the list opens. *)
Theorem highlight_reset_on_open_and_close :
  (forall st, reachable st -> isOpen st = false -> highlightedIndex st = -1)
  /\ (forall st st',
         reachable st -> navStep st st' -> isOpen st' <> isOpen st ->
         highlightedIndex st' = -1).
Proof.
  split; [exact closed_not_highlighted |].
  intros st st' Hreach Hstep Hchange.
  destruct Hstep as [st options g key out Hout | st isOpen'];
    simpl in *.
  - contradiction.
  - destruct isOpen', (isOpen st) eqn:Hopen; simpl;
      try contradiction; try reflexivity.
    now apply closed_not_highlighted.
Qed.

(** The effect alone: it acts when the list closes and leaves the index
    when the list opens. *)
Example resetEffect_on_close : resetEffect false 2 = -1.
Proof. reflexivity. Qed.

Example resetEffect_on_open : resetEffect true 2 = 2.
Proof. reflexivity. Qed.

End SelectAndReset.

(* ================================================================== *)
(** * useVirtualScroll *)
(* ================================================================== *)

Section VirtualScroll.

Import JsArray Hooks Spec.

Context {T : Type}.

Lemma mapFrom_length {B : Type} (f : T -> Z -> B) (l : list T) (i : Z) :
  List.length (mapFrom f l i) = List.length l.
Proof.
  revert i. induction l as [|x l IH]; intros i; simpl; [reflexivity |].
  now rewrite IH.
Qed.

Lemma nth_error_mapFrom {B : Type} (f : T -> Z -> B) (l : list T) (i : Z)
  (pos : nat) :
  nth_error (mapFrom f l i) pos
  = option_map (fun x => f x (i + Z.of_nat pos)) (nth_error l pos).
Proof.
  revert i pos. induction l as [|x l IH]; intros i pos.
  - now destruct pos.
  - destruct pos as [|pos]; simpl.
    + now rewrite Z.add_0_r.
    + rewrite IH. destruct (nth_error l pos); simpl; [| reflexivity].
      do 2 f_equal. lia.
Qed.

(** An element of a slice is the element of the array at the same
    offset from [start]. *)
Lemma slice_in_bounds (l : list T) (a b : Z) (pos : nat) (x : T) :
  0 <= a -> nth_error (slice l a b) pos = Some x ->
  get l (a + Z.of_nat pos) = Some x.
Proof.
  intros Ha H. unfold slice in H.
  assert (Hs : (a <? 0) = false) by (apply Z.ltb_ge; lia).
  rewrite Hs in H. rewrite nth_error_firstn in H.
  destruct (Nat.ltb pos _); [| discriminate].
  rewrite nth_error_skipn in H.
  assert (Hlt : (Z.to_nat (Z.min a (len l)) + pos < List.length l)%nat)
    by (apply nth_error_Some; congruence).
  unfold len in *.
  replace (a + Z.of_nat pos)
    with (Z.of_nat (Z.to_nat (Z.min a (Z.of_nat (List.length l))) + pos))
    by lia.
  now rewrite get_nat.
Qed.

Lemma slice_nth (l : list T) (a b : Z) (pos : nat) :
  0 <= a -> 0 <= b ->
  nth_error (slice l a b) pos
  = if a + Z.of_nat pos <? b then get l (a + Z.of_nat pos) else None.
Proof.
  intros Ha Hb. unfold slice.
  assert (Hs : (a <? 0) = false) by (apply Z.ltb_ge; lia).
  assert (He : (b <? 0) = false) by (apply Z.ltb_ge; lia).
  rewrite Hs, He, nth_error_firstn, nth_error_skipn.
  unfold len. set (n := List.length l).
  destruct (Z.ltb_spec (a + Z.of_nat pos) b) as [Hin|Hout].
  - destruct (Z_lt_dec (a + Z.of_nat pos) (Z.of_nat n)) as [Hn|Hn].
    + assert (Hc : Nat.ltb pos
                     (Z.to_nat (Z.min b (Z.of_nat n) - Z.min a (Z.of_nat n)))
                   = true) by (apply Nat.ltb_lt; lia).
      rewrite Hc. rewrite <- get_nat. f_equal. lia.
    + rewrite (get_beyond l (a + Z.of_nat pos)) by (unfold len; fold n; lia).
      destruct (Nat.ltb pos _); [| reflexivity].
      apply nth_error_None. fold n. lia.
  - assert (Hc : Nat.ltb pos
                   (Z.to_nat (Z.min b (Z.of_nat n) - Z.min a (Z.of_nat n)))
                 = false) by (apply Nat.ltb_ge; lia).
    now rewrite Hc.
Qed.

Lemma slice_length (l : list T) (a b : Z) :
  0 <= a -> 0 <= b -> Z.of_nat (List.length (slice l a b)) <= Z.max 0 (b - a).
Proof.
  intros Ha Hb. unfold slice.
  assert (Hs : (a <? 0) = false) by (apply Z.ltb_ge; lia).
  assert (He : (b <? 0) = false) by (apply Z.ltb_ge; lia).
  rewrite Hs, He, length_firstn, length_skipn. unfold len. lia.
Qed.

Lemma floor_bound (a h k : Z) : 0 < h -> (a / h <= k <-> a < (k + 1) * h).
Proof.
  intros Hh. pose proof (Z.div_mod a h) as Hd.
  pose proof (Z.mod_pos_bound a h Hh) as Hm. split; intros H; nia.
Qed.

Lemma ceil_bound (a h k : Z) :
  0 < h -> (k <= ceilDiv a h <-> (k - 1) * h < a).
Proof.
  intros Hh. unfold ceilDiv.
  pose proof (floor_bound (- a) h (- k) Hh) as Hf. split; intros H.
  - assert (- a / h <= - k) by lia. apply Hf in H0. nia.
  - assert (- a < (- k + 1) * h) by nia. apply Hf in H0. lia.
Qed.

Lemma ceil_upper (a h : Z) : 0 < h -> a <= ceilDiv a h * h.
Proof.
  intros Hh.
  destruct (Z_le_dec a (ceilDiv a h * h)) as [H|H]; [exact H |].
  assert (Hk : (ceilDiv a h + 1 - 1) * h < a) by nia.
  apply (ceil_bound a h (ceilDiv a h + 1) Hh) in Hk. lia.
Qed.

Variables (items : list T) (itemHeight containerHeight overscan scrollTop : Z).

Lemma startIndex_nonneg : 0 <= startIndex itemHeight overscan scrollTop.
Proof. unfold startIndex. lia. Qed.

(** Every windowed row is a row of the list, with its own index. *)
Lemma visibleItems_in_bounds (r : VirtualRow T) :
  In r
    (visibleItems
       (useVirtualScroll items itemHeight containerHeight overscan
          scrollTop)) ->
  get items (index r) = Some (item r).
Proof.
  intros H. apply In_nth_error in H. destruct H as [pos H].
  unfold useVirtualScroll, mapi in H. simpl in H.
  rewrite nth_error_mapFrom in H.
  destruct (nth_error (slice items _ _) pos) as [x|] eqn:Hx;
    [| discriminate].
  simpl in H. inversion H; subst r; simpl.
  apply (slice_in_bounds items _ _ pos x startIndex_nonneg Hx).
Qed.

Hypothesis positiveHeight : 0 < itemHeight.
Hypothesis container : 0 <= containerHeight.
Hypothesis scrolled : 0 <= scrollTop.
Hypothesis margin : 0 <= overscan.

Lemma endIndex_lower :
  0 <= endIndex items itemHeight containerHeight overscan scrollTop + 1.
Proof.
  unfold endIndex.
  assert (0 <= ceilDiv (scrollTop + containerHeight) itemHeight).
  { apply ceil_bound; [exact positiveHeight | nia]. }
  pose proof (len_nonneg items). lia.
Qed.

Lemma visibleItems_rows (i : Z) (x : T) :
  In (mkRow x i)
    (visibleItems
       (useVirtualScroll items itemHeight containerHeight overscan
          scrollTop))
  <-> get items i = Some x
      /\ startIndex itemHeight overscan scrollTop <= i
         <= endIndex items itemHeight containerHeight overscan scrollTop.
Proof.
  unfold useVirtualScroll, mapi. simpl.
  set (first := startIndex itemHeight overscan scrollTop).
  set (last := endIndex items itemHeight containerHeight overscan scrollTop).
  pose proof startIndex_nonneg as Hfirst. fold first in Hfirst.
  pose proof endIndex_lower as Hlast. fold last in Hlast.
  split.
  - intros H. apply In_nth_error in H. destruct H as [pos H].
    rewrite nth_error_mapFrom in H.
    rewrite (slice_nth items first (last + 1) pos Hfirst Hlast) in H.
    destruct (Z.ltb_spec (first + Z.of_nat pos) (last + 1));
      [| discriminate].
    destruct (get items (first + Z.of_nat pos)) as [y|] eqn:Hy;
      [| discriminate].
    simpl in H. inversion H; subst.
    split; [exact Hy | lia].
  - intros [Hget [Hlo Hhi]].
    apply (nth_error_In _ (Z.to_nat (i - first))).
    rewrite nth_error_mapFrom.
    rewrite (slice_nth items first (last + 1) _ Hfirst Hlast).
    replace (first + Z.of_nat (Z.to_nat (i - first))) with i by lia.
    destruct (Z.ltb_spec i (last + 1)); [| lia].
    rewrite Hget. simpl. f_equal. f_equal. lia.
Qed.

Lemma first_bound (i : Z) :
  0 <= i ->
  (startIndex itemHeight overscan scrollTop <= i
   <-> scrollTop - overscan * itemHeight < (i + 1) * itemHeight).
Proof.
  intros Hi. unfold startIndex, floorDiv.
  clear container scrolled margin.
  pose proof (floor_bound scrollTop itemHeight (i + overscan)
                positiveHeight) as Hf.
  split; intros H.
  - assert (scrollTop / itemHeight <= i + overscan) by lia.
    apply Hf in H0. nia.
  - assert (scrollTop < (i + overscan + 1) * itemHeight) by nia.
    apply Hf in H0. lia.
Qed.

Lemma last_bound (i : Z) :
  i < len items ->
  (i <= endIndex items itemHeight containerHeight overscan scrollTop
   <-> i * itemHeight
       < scrollTop + containerHeight + overscan * itemHeight + itemHeight).
Proof.
  intros Hi. unfold endIndex.
  clear container scrolled margin.
  pose proof (ceil_bound (scrollTop + containerHeight) itemHeight
                (i - overscan) positiveHeight) as Hc.
  split; intros H.
  - assert (i - overscan
            <= ceilDiv (scrollTop + containerHeight) itemHeight) by lia.
    apply Hc in H0. nia.
  - assert ((i - overscan - 1) * itemHeight < scrollTop + containerHeight)
      by nia.
    apply Hc in H0. lia.
Qed.

Lemma visibleItems_count :
  Z.of_nat
    (List.length
       (visibleItems
          (useVirtualScroll items itemHeight containerHeight overscan
             scrollTop)))
  <= ceilDiv containerHeight itemHeight + 2 * overscan + 2.
Proof.
  unfold useVirtualScroll, mapi. cbn [visibleItems].
  rewrite mapFrom_length.
  pose proof (slice_length items _ _ startIndex_nonneg endIndex_lower)
    as Hlen.
  assert (Hceil : ceilDiv (scrollTop + containerHeight) itemHeight
                  <= scrollTop / itemHeight
                     + ceilDiv containerHeight itemHeight + 1).
  { set (m := scrollTop / itemHeight
              + ceilDiv containerHeight itemHeight + 1).
    destruct (Z_le_dec (ceilDiv (scrollTop + containerHeight) itemHeight) m)
      as [H|H]; [exact H |].
    assert (Hk : m + 1 <= ceilDiv (scrollTop + containerHeight) itemHeight)
      by lia.
    apply (ceil_bound _ _ _ positiveHeight) in Hk.
    pose proof (ceil_upper containerHeight itemHeight positiveHeight).
    assert (scrollTop < (scrollTop / itemHeight + 1) * itemHeight)
      by (apply floor_bound; [exact positiveHeight | lia]).
    unfold m in Hk. nia. }
  assert (0 <= ceilDiv containerHeight itemHeight)
    by (apply ceil_bound; [exact positiveHeight | nia]).
  unfold startIndex, endIndex, floorDiv in *. lia.
Qed.

(** The window holds exactly the rows that meet the visible range
    extended by the overscan margin on each side and by one more row
    height at its end. *)
Lemma visibleItems_intersecting (i : Z) (x : T) :
  In (mkRow x i)
    (visibleItems
       (useVirtualScroll items itemHeight containerHeight overscan
          scrollTop))
  <-> get items i = Some x
      /\ rowIntersects itemHeight
           (scrollTop - overscan * itemHeight)
           (scrollTop + containerHeight + overscan * itemHeight
            + itemHeight) i.
Proof.
  rewrite visibleItems_rows. unfold rowIntersects. split.
  - intros [Hget [Hlo Hhi]].
    pose proof (get_Some_range _ _ _ Hget) as Hr.
    split; [exact Hget |]. split.
    + apply last_bound; lia.
    + apply first_bound; lia.
  - intros [Hget [Hhi Hlo]].
    pose proof (get_Some_range _ _ _ Hget) as Hr.
    split; [exact Hget |]. split.
    + apply first_bound; lia.
    + apply last_bound; lia.
Qed.

End VirtualScroll.

Section VirtualWindow.

Import JsArray Hooks Spec.

(** C4, as the code has it.  For every item list, positive row height,
    container height, overscan and scroll offset (none negative), the
    window holds exactly the rows that meet the visible scroll range
    extended by the overscan margin on each side and by one more row
    height at its end; in particular it holds every row that meets the
    range extended by the overscan margin.  Once the item count exceeds
    the activation threshold, the number of windowed rows is strictly
    less than the item count provided the container is at most
    threshold - 2 * overscan - 2 rows high. *)
Theorem virtual_window_rows (T : Type) (items : list T)
  (itemHeight containerHeight overscan scrollTop : Z) :
  0 < itemHeight -> 0 <= containerHeight -> 0 <= scrollTop ->
  0 <= overscan ->
  (forall i x,
      In (mkRow x i)
        (visibleItems
           (useVirtualScroll items itemHeight containerHeight overscan
              scrollTop))
      <-> get items i = Some x
          /\ rowIntersects itemHeight
               (scrollTop - overscan * itemHeight)
               (scrollTop + containerHeight + overscan * itemHeight
                + itemHeight) i)
  /\ (forall i x,
         get items i = Some x ->
         rowIntersects itemHeight
           (scrollTop - overscan * itemHeight)
           (scrollTop + containerHeight + overscan * itemHeight) i ->
         In (mkRow x i)
           (visibleItems
              (useVirtualScroll items itemHeight containerHeight overscan
                 scrollTop)))
  /\ (InputDropdown.LARGE_LIST_THRESHOLD < len items ->
      ceilDiv containerHeight itemHeight + 2 * overscan + 2
      <= InputDropdown.LARGE_LIST_THRESHOLD ->
      (List.length
         (visibleItems
            (useVirtualScroll items itemHeight containerHeight overscan
               scrollTop))
       < List.length items)%nat).
Proof.
  intros Hh Hc Hs Ho.
  pose proof (visibleItems_intersecting items itemHeight containerHeight
                overscan scrollTop Hh Hc Hs Ho) as Hrows.
  split; [exact Hrows |]. split.
  - intros i x Hget [Hhi Hlo]. apply Hrows.
    split; [exact Hget |]. split; lia.
  - intros Hbig Hsmall.
    pose proof (visibleItems_count items itemHeight containerHeight
                  overscan scrollTop Hh Hc Hs Ho) as Hcount.
    unfold len in Hbig. lia.
Qed.

Lemma virtual_window_rows_witness :
  (forall i x,
      In (mkRow x i)
        (visibleItems (useVirtualScroll (seq 0 200) 40 240 5 400))
      <-> get (seq 0 200) i = Some x
          /\ rowIntersects 40 (400 - 5 * 40) (400 + 240 + 5 * 40 + 40) i)
  /\ (forall i x,
         get (seq 0 200) i = Some x ->
         rowIntersects 40 (400 - 5 * 40) (400 + 240 + 5 * 40) i ->
         In (mkRow x i)
           (visibleItems (useVirtualScroll (seq 0 200) 40 240 5 400)))
  /\ (InputDropdown.LARGE_LIST_THRESHOLD < len (seq 0 200) ->
      ceilDiv 240 40 + 2 * 5 + 2 <= InputDropdown.LARGE_LIST_THRESHOLD ->
      (List.length
         (visibleItems (useVirtualScroll (seq 0 200) 40 240 5 400))
       < List.length (seq 0 200))%nat).
Proof.
  apply (virtual_window_rows nat (seq 0 200) 40 240 5 400); lia.
Defined.

(** At offset 400 in 200 rows of 40 px under a 240 px container the
    window is the rows 5 to 21: 10 to 15 are visible, 16 is the further
    row. *)
Example window_at_400 :
  map index (visibleItems (useVirtualScroll (seq 0 200) 40 240 5 400))
  = [5; 6; 7; 8; 9; 10; 11; 12; 13; 14; 15; 16; 17; 18; 19; 20; 21].
Proof. reflexivity. Qed.

(** A negative end of a slice counts from the end of the array: at a
    scroll offset far above the list the window is no longer the rows
    around the offset. *)
Example window_at_negative_offset :
  map index (visibleItems (useVirtualScroll (seq 0 24) 40 0 5 (-1000)))
  = [0; 1; 2; 3; 4].
Proof. reflexivity. Qed.

(** C4 as stated fails in both halves.  In 20 rows of 40 px under a
    240 px container at offset 0 the window holds row 11, which starts
    at pixel 440, where the visible range extended by 5 rows ends.  And
    101 rows of 40 px in a container of 4040 px are all windowed. *)
Lemma virtual_window_counterexample :
  ~ (forall (items : list nat) (itemHeight containerHeight scrollTop : Z),
        0 < itemHeight -> 0 <= containerHeight -> 0 <= scrollTop ->
        forall i x,
          In (mkRow x i)
            (visibleItems
               (useVirtualScroll items itemHeight containerHeight 5
                  scrollTop))
          <-> get items i = Some x
              /\ rowIntersects itemHeight (scrollTop - 5 * itemHeight)
                   (scrollTop + containerHeight + 5 * itemHeight) i)
  /\ ~ (forall (items : list nat)
          (itemHeight containerHeight scrollTop : Z),
           0 < itemHeight -> 0 <= containerHeight -> 0 <= scrollTop ->
           InputDropdown.LARGE_LIST_THRESHOLD < len items ->
           (List.length
              (visibleItems
                 (useVirtualScroll items itemHeight containerHeight 5
                    scrollTop))
            < List.length items)%nat).
Proof.
  split; intros H.
  - assert (Hin : In (mkRow 11%nat 11)
                    (visibleItems (useVirtualScroll (seq 0 20) 40 240 5 0)))
      by (vm_compute; do 11 right; left; reflexivity).
    apply (H (seq 0 20) 40 240 0) in Hin; try lia.
    destruct Hin as [_ [Hhi _]]. lia.
  - assert (Hlt : (List.length
                     (visibleItems
                        (useVirtualScroll (seq 0 101) 40 4040 5 0))
                   < List.length (seq 0 101))%nat).
    { apply H; try lia. vm_compute. reflexivity. }
    vm_compute in Hlt. lia.
Qed.

(** In the component: with the default maximum height, or any up to
    3520 px, a filtered list above the threshold is rendered through the
    window and in strictly fewer rows than it has options. *)
Lemma rendered_rows_fewer (p : InputDropdown.Props)
  (st : InputDropdown.State) (scrollTop : Z) :
  InputDropdown.enableVirtualScroll p = None ->
  0 <= InputDropdown.maxHeight p <= 3520 ->
  0 <= scrollTop ->
  InputDropdown.LARGE_LIST_THRESHOLD
  < len (InputDropdown.filteredOptions p st) ->
  InputDropdown.shouldUseVirtualScroll p st = true
  /\ (List.length (InputDropdown.renderedRows p st scrollTop)
      < List.length (InputDropdown.filteredOptions p st))%nat.
Proof.
  intros Hauto Hmax Hs Hbig.
  assert (Hshould : InputDropdown.shouldUseVirtualScroll p st = true).
  { unfold InputDropdown.shouldUseVirtualScroll. rewrite Hauto.
    now apply Z.ltb_lt. }
  split; [exact Hshould |].
  assert (Hsome : (0 < List.length (InputDropdown.filteredOptions p st))%nat)
    by (unfold InputDropdown.LARGE_LIST_THRESHOLD, len in Hbig; lia).
  unfold InputDropdown.renderedRows.
  destruct (negb (InputDropdown.isOpen st)); [exact Hsome |].
  destruct (InputDropdown.loading p); [exact Hsome |].
  destruct (len (InputDropdown.filteredOptions p st) =? 0); [exact Hsome |].
  unfold InputDropdown.renderVirtualItems.
  rewrite Hshould. simpl negb. cbv iota.
  rewrite length_map.
  unfold InputDropdown.virtualScrollProps.
  assert (Hheight : 0 <= InputDropdown.dropdownHeight p st <= 3520).
  { unfold InputDropdown.dropdownHeight, InputDropdown.ITEM_HEIGHT,
      InputDropdown.LARGE_LIST_THRESHOLD in *. lia. }
  assert (Hitem : 0 < InputDropdown.ITEM_HEIGHT)
    by (unfold InputDropdown.ITEM_HEIGHT; lia).
  pose proof (visibleItems_count (InputDropdown.filteredOptions p st)
                InputDropdown.ITEM_HEIGHT (InputDropdown.dropdownHeight p st)
                5 scrollTop Hitem (proj1 Hheight) Hs ltac:(lia)) as Hcount.
  assert (Hrows : ceilDiv (InputDropdown.dropdownHeight p st)
                    InputDropdown.ITEM_HEIGHT <= 88).
  { unfold InputDropdown.ITEM_HEIGHT.
    destruct (Z_le_dec (ceilDiv (InputDropdown.dropdownHeight p st) 40) 88)
      as [Hle|Hgt]; [exact Hle |].
    assert (Hk : 89 <= ceilDiv (InputDropdown.dropdownHeight p st) 40)
      by lia.
    apply ceil_bound in Hk; lia. }
  unfold InputDropdown.LARGE_LIST_THRESHOLD, len in Hbig. lia.
Qed.

(** In the component: 101 options under a maximum height of 5000 px go
    through the window and are all rendered. *)
Example rendered_rows_all :
  let p := InputDropdown.mkProps (Sample.generateLargeOptions 101)
             Undefined false false true None 5000 false true in
  let st := InputDropdown.mkState true EmptyString Undefined in
  InputDropdown.shouldUseVirtualScroll p st = true
  /\ List.length (InputDropdown.renderedRows p st 0) = 101%nat
  /\ List.length (InputDropdown.filteredOptions p st) = 101%nat.
Proof. vm_compute. repeat split. Qed.

End VirtualWindow.

(* ================================================================== *)
(** * InputDropdown: toggling in multi mode *)
(* ================================================================== *)

Section Toggle.

Import Spec InputDropdown.

Lemma isSelected_values (option : Option) (cv : list Option) :
  existsb (fun item => (value item =? value option)%string) cv = true
  <-> In (value option) (map value cv).
Proof.
  rewrite existsb_exists, in_map_iff. split.
  - intros [x [Hin Heq]]. apply String.eqb_eq in Heq. eauto.
  - intros [x [Heq Hin]]. exists x. split; [exact Hin |].
    now apply String.eqb_eq.
Qed.

Lemma others_unselected (option : Option) (cv : list Option) :
  ~ In (value option) (map value cv) -> others option cv = cv.
Proof.
  unfold others. induction cv as [|x cv IH]; simpl; [reflexivity |].
  intros H. destruct (String.eqb_spec (value x) (value option)) as [Heq|Hne].
  - exfalso. apply H. left. exact Heq.
  - simpl. rewrite IH; [reflexivity |]. intros Hin. apply H. now right.
Qed.

Lemma others_values (option : Option) (cv : list Option) (v : string) :
  In v (map value (others option cv))
  <-> In v (map value cv) /\ v <> value option.
Proof.
  unfold others. rewrite !in_map_iff. split.
  - intros [x [Hv Hin]]. apply filter_In in Hin. destruct Hin as [Hin Hx].
    apply negb_true_iff in Hx. apply String.eqb_neq in Hx.
    split; [eauto | congruence].
  - intros [[x [Hv Hin]] Hne]. exists x. split; [exact Hv |].
    apply filter_In. split; [exact Hin |].
    apply negb_true_iff. apply String.eqb_neq. congruence.
Qed.

Lemma others_app_self (option : Option) (cv : list Option) :
  others option (cv ++ [option]) = others option cv.
Proof.
  unfold others. rewrite filter_app. simpl.
  rewrite String.eqb_refl. simpl. apply app_nil_r.
Qed.

Lemma toggled_selected (option : Option) (cv : list Option) :
  In (value option) (map value cv) -> toggled cv option = others option cv.
Proof.
  intros H. apply isSelected_values in H. unfold toggled. now rewrite H.
Qed.

Lemma toggled_unselected (option : Option) (cv : list Option) :
  ~ In (value option) (map value cv) -> toggled cv option = cv ++ [option].
Proof.
  intros H. unfold toggled.
  destruct (existsb _ cv) eqn:He; [| reflexivity].
  apply isSelected_values in He. contradiction.
Qed.

Lemma selected_dec (option : Option) (cv : list Option) :
  {In (value option) (map value cv)} + {~ In (value option) (map value cv)}.
Proof. apply in_dec. apply string_dec. Qed.

(** Toggling keeps the other selected options, in their order. *)
Lemma toggled_others (option : Option) (cv : list Option) :
  others option (toggled cv option) = others option cv.
Proof.
  destruct (selected_dec option cv) as [H|H].
  - rewrite (toggled_selected _ _ H). unfold others. apply filter_twice.
  - rewrite (toggled_unselected _ _ H). apply others_app_self.
Qed.

(** Toggling flips the membership of the option's value. *)
Lemma toggled_membership (option : Option) (cv : list Option) :
  In (value option) (map value (toggled cv option))
  <-> ~ In (value option) (map value cv).
Proof.
  destruct (selected_dec option cv) as [H|H].
  - rewrite (toggled_selected _ _ H). rewrite others_values. tauto.
  - rewrite (toggled_unselected _ _ H). rewrite map_app, in_app_iff.
    simpl. tauto.
Qed.

Lemma toggled_twice_values (option : Option) (cv : list Option) :
  sameValues (toggled (toggled cv option) option) cv.
Proof.
  intros v. destruct (selected_dec option cv) as [H|H].
  - assert (Hout : ~ In (value option) (map value (toggled cv option)))
      by (rewrite toggled_membership; tauto).
    rewrite (toggled_unselected _ _ Hout), (toggled_selected _ _ H).
    rewrite map_app, in_app_iff, others_values. simpl.
    destruct (string_dec v (value option)) as [->|Hne]; [tauto |].
    split; [intros [[Hin _]|[Heq|[]]]; congruence || assumption | tauto].
  - assert (Hin : In (value option) (map value (toggled cv option)))
      by (rewrite toggled_membership; exact H).
    rewrite (toggled_selected _ _ Hin), toggled_others.
    rewrite (others_unselected _ _ H). tauto.
Qed.

Lemma toggled_twice_unselected (option : Option) (cv : list Option) :
  ~ In (value option) (map value cv) ->
  toggled (toggled cv option) option = cv.
Proof.
  intros H.
  assert (Hin : In (value option) (map value (toggled cv option)))
    by (rewrite toggled_membership; exact H).
  rewrite (toggled_selected _ _ Hin), toggled_others.
  now apply others_unselected.
Qed.

Lemma handleSelect_multi (p : Props) (st : State) (cv : list Option)
  (option : Option) :
  multiple p = true -> currentValue p st = Multi cv ->
  isDisabled option = false ->
  handleSelect p st option
  = (setInternalValue p st (Multi (toggled cv option)),
     [Multi (toggled cv option)]).
Proof.
  intros Hm Hcv Hd. unfold handleSelect. now rewrite Hd, Hm, Hcv.
Qed.

(** C5: in multi mode, for every selection and every option, the
    selection handler toggles the option's membership by value: the
    notified selection keeps the other selected options in their
    encounter order, and has the option's value exactly when the
    selection had not.  Toggling the same option twice in succession
    returns the original selection set: the same set of values, and the
    very same list when the option was not selected.  In the
    uncontrolled component this is the selection held after the two
    calls. *)
Theorem toggle_twice_restores_selection (p : Props) (st : State)
  (cv : list Option) (option : Option) :
  multiple p = true -> currentValue p st = Multi cv ->
  (if isDisabled option
   then handleSelect p st option = (st, [])
   else snd (handleSelect p st option) = [Multi (toggled cv option)])
  /\ others option (toggled cv option) = others option cv
  /\ (In (value option) (map value (toggled cv option))
      <-> ~ In (value option) (map value cv))
  /\ sameValues (toggled (toggled cv option) option) cv
  /\ (~ In (value option) (map value cv) ->
      toggled (toggled cv option) option = cv)
  /\ (propValue p = Undefined ->
      exists twice,
        internalValue
          (fst (handleSelect p (fst (handleSelect p st option)) option))
        = Multi twice
        /\ sameValues twice cv
        /\ others option twice = others option cv).
Proof.
  intros Hm Hcv.
  split.
  { destruct (isDisabled option) eqn:Hd.
    - unfold handleSelect. now rewrite Hd.
    - now rewrite (handleSelect_multi p st cv option Hm Hcv Hd). }
  split; [apply toggled_others |].
  split; [apply toggled_membership |].
  split; [apply toggled_twice_values |].
  split; [apply toggled_twice_unselected |].
  intros Hun.
  assert (Hint : internalValue st = Multi cv).
  { unfold currentValue in Hcv. now rewrite Hun in Hcv. }
  destruct (isDisabled option) eqn:Hd.
  - exists cv. unfold handleSelect. rewrite Hd. simpl.
    split; [exact Hint |]. split; [intros v; tauto | reflexivity].
  - exists (toggled (toggled cv option) option).
    rewrite (handleSelect_multi p st cv option Hm Hcv Hd). simpl.
    assert (Hcv' : currentValue p
                     (setInternalValue p st (Multi (toggled cv option)))
                   = Multi (toggled cv option)).
    { unfold currentValue, setInternalValue. now rewrite Hun. }
    rewrite (handleSelect_multi p _ _ option Hm Hcv' Hd). simpl.
    split.
    + unfold setInternalValue. now rewrite Hun.
    + split; [apply toggled_twice_values |].
      now rewrite !toggled_others.
Qed.

Lemma toggle_twice_restores_selection_witness :
  let p := mkProps Sample.mockOptions Undefined true false true None 240
             false true in
  let st := mkState true EmptyString
              (Multi [Sample.apple; Sample.banana]) in
  let cv := [Sample.apple; Sample.banana] in
  (if isDisabled Sample.apple
   then handleSelect p st Sample.apple = (st, [])
   else snd (handleSelect p st Sample.apple)
        = [Multi (toggled cv Sample.apple)])
  /\ others Sample.apple (toggled cv Sample.apple) = others Sample.apple cv
  /\ (In (value Sample.apple) (map value (toggled cv Sample.apple))
      <-> ~ In (value Sample.apple) (map value cv))
  /\ sameValues (toggled (toggled cv Sample.apple) Sample.apple) cv
  /\ (~ In (value Sample.apple) (map value cv) ->
      toggled (toggled cv Sample.apple) Sample.apple = cv)
  /\ (propValue p = Undefined ->
      exists twice,
        internalValue
          (fst (handleSelect p (fst (handleSelect p st Sample.apple))
                  Sample.apple))
        = Multi twice
        /\ sameValues twice cv
        /\ others Sample.apple twice = others Sample.apple cv).
Proof.
  exact (toggle_twice_restores_selection
           (mkProps Sample.mockOptions Undefined true false true None 240
              false true)
           (mkState true EmptyString (Multi [Sample.apple; Sample.banana]))
           [Sample.apple; Sample.banana] Sample.apple eq_refl eq_refl).
Defined.

(** The set comes back, the order of the list need not: a selected
    option toggled twice moves to the end. *)
Example toggled_twice_moves_last :
  toggled (toggled [Sample.apple; Sample.banana] Sample.apple) Sample.apple
  = [Sample.banana; Sample.apple].
Proof. reflexivity. Qed.

End Toggle.

(* ================================================================== *)
(** * Totality and bounds *)
(* ================================================================== *)

Section Totality.

Import JsArray Hooks Spec.
Local Open Scope string_scope.

Lemma get_in_range {A : Type} (l : list A) (i : Z) :
  (0 <= i < len l)%Z -> exists x, get l i = Some x.
Proof.
  intros H. destruct (get l i) as [x|] eqn:Hg; [eauto |].
  apply get_None_range in Hg. lia.
Qed.

Lemma findIndexFrom_range {A : Type} (p : A -> Z -> bool) (l : list A)
  (i : Z) :
  (findIndexFrom p l i = -1
   \/ i <= findIndexFrom p l i < i + len l)%Z.
Proof.
  revert i. induction l as [|x l IH]; intros i; simpl; [now left |].
  rewrite len_cons. pose proof (len_nonneg l).
  destruct (p x i); [right; lia |].
  destruct (IH (i + 1)%Z) as [H1|H1]; [now left | right; lia].
Qed.

Lemma currentIndex_range (options : list Option) (prev : Z) :
  (-1 <= currentIndex options prev < len (availableOptions options)
   \/ currentIndex options prev = -1)%Z.
Proof.
  unfold currentIndex, findIndex.
  destruct (findIndexFrom_range
              (fun (_ : Option) index =>
                 (indexOf options (get (availableOptions options) index)
                  =? prev)%Z)
              (availableOptions options) 0) as [H|H].
  - now right.
  - left. lia.
Qed.

Lemma indexOf_range (options : list Option) (x : option Option) :
  (-1 <= indexOf options x < len options)%Z.
Proof.
  destruct x as [o|]; simpl.
  - apply indexOfObject_range.
  - pose proof (len_nonneg options). lia.
Qed.

Lemma available_of_enabled (options : list Option) :
  (exists i, enabledAt options i) ->
  (0 < len (availableOptions options))%Z.
Proof.
  intros [i [o [Hget Hd]]].
  apply get_Some_nat in Hget. destruct Hget as [k [_ Hk]].
  assert (Hin : In o (availableOptions options)).
  { apply filter_In. split; [eapply nth_error_In; eauto |].
    now rewrite Hd. }
  unfold len. destruct (availableOptions options); [contradiction |].
  simpl List.length. lia.
Qed.

Lemma available_of_none (options : list Option) :
  (forall i, ~ enabledAt options i) -> availableOptions options = [].
Proof.
  intros Hnone. destruct (availableOptions options) as [|x l] eqn:Ha;
    [reflexivity |].
  assert (Hin : In x (availableOptions options))
    by (rewrite Ha; now left).
  apply filter_In in Hin. destruct Hin as [Hin Hx].
  apply In_nth_error in Hin. destruct Hin as [k Hk].
  exfalso. apply (Hnone (Z.of_nat k)). exists x.
  rewrite get_nat. split; [exact Hk |].
  now apply negb_true_iff.
Qed.

Lemma nextIndex_in_bounds (options : list Option) (prev : Z) :
  (0 < len (availableOptions options))%Z ->
  (0 <= nextIndex options prev < len (availableOptions options))%Z.
Proof.
  intros Hpos. unfold nextIndex.
  pose proof (currentIndex_range options prev) as Hc.
  destruct (Z.ltb_spec (currentIndex options prev)
              (len (availableOptions options) - 1)); lia.
Qed.

Lemma prevIndex_in_bounds (options : list Option) (prev : Z) :
  (0 < len (availableOptions options))%Z ->
  (0 <= prevIndex options prev < len (availableOptions options))%Z.
Proof.
  intros Hpos. unfold prevIndex.
  pose proof (currentIndex_range options prev) as Hc.
  destruct (Z.ltb_spec 0 (currentIndex options prev)); lia.
Qed.

Lemma enter_total (options : list Option) (highlightedIndex : Z) :
  exists calls, enter options highlightedIndex = Normal calls.
Proof.
  unfold enter.
  destruct ((0 <=? highlightedIndex)%Z
            && (highlightedIndex <? len options)%Z) eqn:Hguard;
    [| eauto].
  apply andb_true_iff in Hguard. destruct Hguard as [H0 H1].
  apply Z.leb_le in H0. apply Z.ltb_lt in H1.
  destruct (get_in_range options highlightedIndex (conj H0 H1)) as [o Ho].
  rewrite Ho. destruct (negb (isDisabled o)); eauto.
Qed.

Lemma home_range (options : list Option) (highlightedIndex : Z) :
  (-1 <= highlightedIndex < len options ->
   -1 <= home options highlightedIndex < len options)%Z.
Proof.
  intros Hhi. unfold home, findIndex.
  destruct (findIndexFrom_range
              (fun (option : Option) (_ : Z) => negb (isDisabled option))
              options 0) as [H|H].
  - rewrite H. simpl. exact Hhi.
  - destruct (negb (_ =? -1)%Z); lia.
Qed.

Lemma end_range (options : list Option) (highlightedIndex : Z) :
  (-1 <= highlightedIndex < len options ->
   -1 <= end_ options highlightedIndex < len options)%Z.
Proof.
  intros Hhi. unfold end_.
  destruct (0 <? len (availableOptions options))%Z;
    [apply indexOf_range | exact Hhi].
Qed.

(** The key handler never throws, and it keeps the highlighted index at
    -1 or at a position of the list. *)
Lemma handleKeyDown_total (options : list Option) (isOpen onOpenGiven : bool)
  (highlightedIndex : Z) (key : string) :
  exists out,
    handleKeyDown options isOpen onOpenGiven highlightedIndex key
    = Normal out
    /\ ((-1 <= highlightedIndex < len options)%Z ->
        (-1 <= nextHighlighted out < len options)%Z).
Proof.
  unfold handleKeyDown. destruct isOpen; simpl.
  - destruct (key =? "ArrowDown");
      [eexists; split; [reflexivity | intros _; apply indexOf_range] |].
    destruct (key =? "ArrowUp");
      [eexists; split; [reflexivity | intros _; apply indexOf_range] |].
    destruct ((key =? "Enter") || (key =? " ")).
    { destruct (enter_total options highlightedIndex) as [calls ->].
      eexists; split; [reflexivity | auto]. }
    destruct (key =? "Escape"); [eexists; split; [reflexivity | auto] |].
    destruct (key =? "Home");
      [eexists; split; [reflexivity | apply home_range] |].
    destruct (key =? "End");
      [eexists; split; [reflexivity | apply end_range] |].
    eexists; split; [reflexivity | auto].
  - destruct ((key =? "ArrowDown") || (key =? "ArrowUp") || (key =? "Enter")
              || (key =? " ")); eexists; split; try reflexivity; auto.
Qed.

(** With an enabled option both arrow updaters read a position of
    [availableOptions]. *)
Lemma arrows_read_available (options : list Option) (prev : Z) :
  (exists i, enabledAt options i) ->
  (exists o, get (availableOptions options) (nextIndex options prev)
             = Some o)
  /\ (exists o, get (availableOptions options) (prevIndex options prev)
                = Some o).
Proof.
  intros Hex. apply available_of_enabled in Hex.
  split; apply get_in_range;
    [now apply nextIndex_in_bounds | now apply prevIndex_in_bounds].
Qed.

(** With no enabled option [availableOptions] is empty, both arrow
    updaters read outside it, and the highlighted index becomes -1. *)
Lemma arrows_without_enabled (options : list Option) (prev : Z) :
  (forall i, ~ enabledAt options i) ->
  get (availableOptions options) (nextIndex options prev) = None
  /\ get (availableOptions options) (prevIndex options prev) = None
  /\ arrowDown options prev = (-1)%Z
  /\ arrowUp options prev = (-1)%Z.
Proof.
  intros Hnone. pose proof (available_of_none options Hnone) as Ha.
  unfold arrowDown, arrowUp, nextIndex, prevIndex, currentIndex.
  simpl. rewrite Ha. repeat split.
Qed.

Lemma filterOptions_subset (options : list Option) (query : string)
  (o : Option) :
  In o (filterOptions options query) -> In o options.
Proof.
  unfold filterOptions.
  destruct (negb (JsString.truthy (JsString.trim query))); [auto |].
  intros H. apply filter_In in H. tauto.
Qed.

End Totality.

Section TotalOperations.

Import JsArray Hooks Spec.
Local Open Scope string_scope.

Lemma visibleItems_of_empty {T : Type}
  (itemHeight containerHeight overscan scrollTop : Z) :
  visibleItems
    (useVirtualScroll (@nil T) itemHeight containerHeight overscan
       scrollTop)
  = [].
Proof.
  unfold useVirtualScroll, mapi, slice. cbn [visibleItems].
  now rewrite skipn_nil, firstn_nil.
Qed.

(** Every operation returns a result for every input, the empty option
    list and the list of disabled options included:
    - the key handler of the hook, and the component's key handling
      built on it, never throw, and a highlighted index that is -1 or a
      position of the list stays so;
    - with an enabled option the arrow updaters read a position of
      [availableOptions];
    - every windowed row of the virtual scroll is a row of the list, at
      every scroll offset, and the empty list has no windowed row;
    - filtering returns options of the list, none for the empty list,
      and the labels of the empty selection are empty. *)
Lemma operations_return :
  (forall options isOpen onOpenGiven highlightedIndex key,
      exists out,
        handleKeyDown options isOpen onOpenGiven highlightedIndex key
        = Normal out
        /\ ((-1 <= highlightedIndex < len options)%Z ->
            (-1 <= nextHighlighted out < len options)%Z))
  /\ (forall p st highlightedIndex key,
         exists r, InputDropdown.onKeyDown p st highlightedIndex key
                   = Normal r)
  /\ (forall options prev,
         (exists i, enabledAt options i) ->
         (exists o, get (availableOptions options) (nextIndex options prev)
                    = Some o)
         /\ (exists o, get (availableOptions options)
                         (prevIndex options prev)
                       = Some o))
  /\ (forall (T : Type) (items : list T)
        (itemHeight containerHeight overscan scrollTop : Z)
        (r : VirtualRow T),
         (0 < itemHeight)%Z ->
         In r (visibleItems
                 (useVirtualScroll items itemHeight containerHeight
                    overscan scrollTop)) ->
         get items (index r) = Some (item r))
  /\ (forall (T : Type) (itemHeight containerHeight overscan scrollTop : Z),
         visibleItems
           (useVirtualScroll (@nil T) itemHeight containerHeight overscan
              scrollTop)
         = [])
  /\ (forall options query o,
         In o (filterOptions options query) -> In o options)
  /\ (forall query, filterOptions [] query = [])
  /\ (forall multiple, getSelectedOptionLabels (Multi []) multiple = []).
Proof.
  split; [apply handleKeyDown_total |].
  split.
  { intros p st hi key. unfold InputDropdown.onKeyDown.
    destruct (handleKeyDown_total (InputDropdown.filteredOptions p st)
                (InputDropdown.isOpen st) true hi key) as [out [-> _]].
    eauto. }
  split; [apply arrows_read_available |].
  split.
  { intros T items h c ov s r _. apply visibleItems_in_bounds. }
  split; [intros; apply visibleItems_of_empty |].
  split; [apply filterOptions_subset |].
  split.
  - intros query. unfold filterOptions.
    now destruct (negb (JsString.truthy (JsString.trim query))).
  - intros []; reflexivity.
Qed.


(** The same holds of the empty option list. *)
Example arrows_on_empty_list :
  get (availableOptions []) (nextIndex [] (-1)) = None
  /\ get (availableOptions []) (prevIndex [] (-1)) = None
  /\ handleKeyDown [] true true (-1)%Z "ArrowDown"
     = Normal (mkOutcome true [] (-1)%Z)
  /\ handleKeyDown [] true true (-1)%Z "ArrowUp"
     = Normal (mkOutcome true [] (-1)%Z).
Proof. repeat split; reflexivity. Qed.

End TotalOperations.


(* ================================================================== *)
(** * filterOptions: how queries relate *)
(* ================================================================== *)

Section Queries.

Import JsString Spec.
Local Open Scope string_scope.

Lemma allWhiteSpace_app (a b : string) :
  allWhiteSpace (a ++ b) = allWhiteSpace a && allWhiteSpace b.
Proof.
  induction a as [|c a IH]; simpl; [reflexivity |].
  rewrite IH. now rewrite andb_assoc.
Qed.

Lemma isWhiteSpace_not_upper (c : ascii) :
  isUpperCase c = true -> isWhiteSpace c = false.
Proof.
  unfold isUpperCase, isWhiteSpace. set (n := nat_of_ascii c). intros H.
  apply orb_true_iff in H.
  assert (Hn : ((65 <= n /\ n <= 90) \/ (192 <= n /\ n <= 222))%nat).
  { destruct H as [H|H].
    - apply andb_true_iff in H. destruct H as [H1 H2].
      apply Nat.leb_le in H1, H2. now left.
    - apply andb_true_iff in H. destruct H as [H _].
      apply andb_true_iff in H. destruct H as [H1 H2].
      apply Nat.leb_le in H1, H2. now right. }
  apply orb_false_iff. split; [apply orb_false_iff; split |].
  - apply andb_false_iff. right. apply Nat.leb_gt. lia.
  - apply Nat.eqb_neq. lia.
  - apply Nat.eqb_neq. lia.
Qed.

Lemma isWhiteSpace_lowerChar (c : ascii) :
  isWhiteSpace (lowerChar c) = isWhiteSpace c.
Proof.
  destruct (isUpperCase c) eqn:Hu.
  - rewrite (isWhiteSpace_not_upper c Hu).
    pose proof (isUpperCase_bound c Hu) as Hb.
    unfold lowerChar. rewrite Hu.
    unfold isWhiteSpace. rewrite nat_ascii_embedding by exact Hb.
    unfold isUpperCase in Hu. set (n := nat_of_ascii c) in *.
    assert (Hn : (65 <= n)%nat).
    { apply orb_true_iff in Hu. destruct Hu as [H|H].
      - apply andb_true_iff in H. destruct H as [H1 _].
        now apply Nat.leb_le in H1.
      - apply andb_true_iff in H. destruct H as [H _].
        apply andb_true_iff in H. destruct H as [H1 _].
        apply Nat.leb_le in H1. lia. }
    assert (Hne : (n + 32 <> 160)%nat).
    { intros Heq. assert (Hn' : (n = 128)%nat) by lia.
      apply orb_true_iff in Hu. destruct Hu as [H|H].
      - apply andb_true_iff in H. destruct H as [_ H2].
        apply Nat.leb_le in H2. lia.
      - apply andb_true_iff in H. destruct H as [H _].
        apply andb_true_iff in H. destruct H as [H1 _].
        apply Nat.leb_le in H1. lia. }
    apply orb_false_iff. split; [apply orb_false_iff; split |].
    + apply andb_false_iff. right. apply Nat.leb_gt. lia.
    + apply Nat.eqb_neq. lia.
    + now apply Nat.eqb_neq.
  - unfold lowerChar. now rewrite Hu.
Qed.

Lemma allWhiteSpace_toLowerCase (s : string) :
  allWhiteSpace (toLowerCase s) = allWhiteSpace s.
Proof.
  induction s as [|c s IH]; simpl; [reflexivity |].
  now rewrite isWhiteSpace_lowerChar, IH.
Qed.

Lemma string_app_assoc (a b c : string) : (a ++ b) ++ c = a ++ b ++ c.
Proof. induction a as [|x a IH]; simpl; [reflexivity | now rewrite IH]. Qed.

Lemma includes_part (s a q b : string) :
  includes s (a ++ q ++ b) = true -> includes s q = true.
Proof.
  rewrite !includes_app. intros [before [after ->]].
  exists (before ++ a), (b ++ after).
  now rewrite !string_app_assoc.
Qed.

Lemma matchesLowercaseQuery_part (a q b : string) (o : Option) :
  matchesLowercaseQuery (toLowerCase (a ++ q ++ b)) o = true ->
  matchesLowercaseQuery (toLowerCase q) o = true.
Proof.
  unfold matchesLowercaseQuery. rewrite !toLowerCase_app.
  rewrite !orb_true_iff. intros [[H|H]|H].
  - left; left. eapply includes_part; eauto.
  - left; right. eapply includes_part; eauto.
  - right. destruct (description o); [| discriminate].
    eapply includes_part; eauto.
Qed.

Lemma filter_narrower {A : Type} (p p' : A -> bool) (l : list A) :
  (forall x, p' x = true -> p x = true) ->
  filter p' (filter p l) = filter p' l.
Proof.
  intros H. induction l as [|x l IH]; simpl; [reflexivity |].
  destruct (p x) eqn:Hp; simpl.
  - now rewrite IH.
  - destruct (p' x) eqn:Hp'; [| exact IH].
    apply H in Hp'. congruence.
Qed.

(** X1: On strings over the code units U+0000..U+00FF, typing on narrows
    the result: when the new query contains the old one, filtering the
    old result with the new query gives what filtering all options with
    the new query gives, so every option found by the new query was found
    by the old one. *)
Theorem filterOptions_narrows (options : list Option) (a query b : string) :
  filterOptions (filterOptions options query) (a ++ query ++ b)
  = filterOptions options (a ++ query ++ b)
  /\ (forall o, In o (filterOptions options (a ++ query ++ b)) ->
                In o (filterOptions options query)).
Proof.
  assert (Heq : filterOptions (filterOptions options query) (a ++ query ++ b)
                = filterOptions options (a ++ query ++ b)).
  { destruct (allWhiteSpace query) eqn:Hq.
    - now rewrite (filterOptions_blank options query Hq).
    - assert (Hq' : allWhiteSpace (a ++ query ++ b) = false).
      { rewrite !allWhiteSpace_app, Hq. simpl. apply andb_false_r. }
      rewrite (filterOptions_not_blank _ _ Hq').
      rewrite (filterOptions_not_blank options _ Hq').
      rewrite (filterOptions_not_blank options _ Hq).
      apply filter_narrower. intros o. apply matchesLowercaseQuery_part. }
  split; [exact Heq |].
  intros o Hin. rewrite <- Heq in Hin.
  eapply filterOptions_subset; eauto.
Qed.

(** X2: On strings over the code units U+0000..U+00FF, the letter case
    of the query does not matter: two queries of the same length that
    agree at each position up to the case of the letters A-Z and
    U+00C0..U+00DE (U+00D7 apart) return the same options. *)
Theorem filterOptions_ignores_query_case (options : list Option)
  (query query' : string) :
  sameIgnoringCase query query' ->
  filterOptions options query = filterOptions options query'.
Proof.
  intros H. apply sameIgnoringCase_toLowerCase in H.
  assert (Hw : allWhiteSpace query = allWhiteSpace query').
  { rewrite <- (allWhiteSpace_toLowerCase query), H.
    apply allWhiteSpace_toLowerCase. }
  destruct (allWhiteSpace query) eqn:Hq.
  - rewrite (filterOptions_blank options query Hq).
    symmetry. apply filterOptions_blank. now rewrite <- Hw.
  - rewrite (filterOptions_not_blank options query Hq).
    rewrite (filterOptions_not_blank options query') by (now rewrite <- Hw).
    now rewrite H.
Qed.

Lemma sameIgnoringCase_Red :
  sameIgnoringCase "Red" "rED".
Proof. apply sameIgnoringCase_toLowerCase. reflexivity. Qed.

Lemma filterOptions_ignores_query_case_witness :
  filterOptions Sample.mockOptions "Red"
  = filterOptions Sample.mockOptions "rED".
Proof.
  exact (filterOptions_ignores_query_case Sample.mockOptions "Red" "rED"
           sameIgnoringCase_Red).
Defined.

Lemma trim_empty (s : string) :
  (trim s =? "") = allWhiteSpace s.
Proof.
  pose proof (truthy_trim s) as H.
  destruct (trim s); simpl in *.
  - now destruct (allWhiteSpace s).
  - now destruct (allWhiteSpace s).
Qed.

(** X3: [isEmpty] and [filterOptions] agree on what an absent query is: a
    string is empty for [isEmpty] exactly when it is made of white space,
    and exactly then [filterOptions] leaves every option list as it is. *)
Theorem isEmpty_query (query : string) :
  isEmpty (VString query) = allWhiteSpace query
  /\ (isEmpty (VString query) = true
      <-> forall options, filterOptions options query = options).
Proof.
  assert (He : isEmpty (VString query) = allWhiteSpace query)
    by apply trim_empty.
  split; [exact He |]. rewrite He. split.
  - intros H options. now apply filterOptions_blank.
  - intros H. destruct (allWhiteSpace query) eqn:Hq; [reflexivity |].
    specialize (H [mkOption 0 "" "" None None]).
    rewrite (filterOptions_not_blank _ _ Hq) in H.
    destruct query as [|c query]; [discriminate |].
    simpl in H. discriminate H.
Qed.

End Queries.

(* ================================================================== *)
(** * useKeyboardNavigation: Home, End and sequences of keys *)
(* ================================================================== *)

Section HomeEnd.

Import JsArray Hooks Spec Positions.
Local Open Scope string_scope.

(** [findIndex] with a test on the element alone: the first position
    that passes, or -1 when none does. *)
Lemma findIndexFrom_first {A : Type} (p : A -> bool) (l : list A) (i : Z) :
  (findIndexFrom (fun x _ => p x) l i = (-1)%Z
   /\ forall x, In x l -> p x = false)
  \/ exists k x,
       findIndexFrom (fun x _ => p x) l i = (i + Z.of_nat k)%Z
       /\ nth_error l k = Some x /\ p x = true
       /\ forall k' x', (k' < k)%nat -> nth_error l k' = Some x' ->
                        p x' = false.
Proof.
  revert i. induction l as [|y l IH]; intros i; simpl.
  - left. split; [reflexivity | contradiction].
  - destruct (p y) eqn:Hy.
    + right. exists 0%nat, y.
      split; [lia |]. split; [reflexivity |]. split; [exact Hy |].
      intros k' x' Hk'. lia.
    + destruct (IH (i + 1)%Z) as [[Hr Hall]|[k [x [Hr [Hk [Hx Hmin]]]]]].
      * left. split; [exact Hr |]. intros x [<-|Hin]; auto.
      * right. exists (S k), x.
        split; [rewrite Hr; lia |]. split; [exact Hk |].
        split; [exact Hx |].
        intros k' x' Hlt Hk'. destruct k' as [|k']; simpl in Hk'.
        -- inversion Hk'; subst. exact Hy.
        -- apply (Hmin k' x'); [lia | exact Hk'].
Qed.

Lemma no_enabled_dec (options : list Option) :
  {exists i, enabledAt options i} + {forall i, ~ enabledAt options i}.
Proof.
  destruct (enabledPositions options) as [|e E] eqn:HE.
  - right. intros i Hi. apply enabledPositions_enabledAt in Hi.
    rewrite HE in Hi. contradiction.
  - left. exists e. apply enabledPositions_enabledAt. rewrite HE. now left.
Qed.

Lemma home_first (options : list Option) (highlightedIndex : Z) :
  (exists i, enabledAt options i) ->
  enabledAt options (home options highlightedIndex)
  /\ forall i, (i < home options highlightedIndex)%Z -> ~ enabledAt options i.
Proof.
  intros [i0 [o0 [Hget0 Hd0]]]. unfold home, findIndex.
  destruct (findIndexFrom_first (fun o => negb (isDisabled o)) options 0%Z)
    as [[_ Hall]|[k [x [Hr [Hk [Hx Hmin]]]]]].
  - exfalso. apply get_Some_nat in Hget0. destruct Hget0 as [k0 [_ Hk0]].
    apply nth_error_In in Hk0. apply Hall in Hk0. rewrite Hd0 in Hk0.
    discriminate.
  - rewrite Hr. simpl.
    destruct (Z.eqb_spec (Z.of_nat k) (-1)%Z) as [Hneg|_]; [lia |]. simpl.
    split.
    + exists x. rewrite get_nat. split; [exact Hk |].
      now apply negb_true_iff.
    + intros i Hlt [o [Hget Hd]].
      apply get_Some_nat in Hget. destruct Hget as [k' [-> Hk']].
      assert (Hf : negb (isDisabled o) = false)
        by (apply (Hmin k' o); [lia | exact Hk']).
      rewrite Hd in Hf. discriminate.
Qed.

Lemma home_none (options : list Option) (highlightedIndex : Z) :
  (forall i, ~ enabledAt options i) ->
  home options highlightedIndex = highlightedIndex.
Proof.
  intros Hnone. unfold home, findIndex.
  destruct (findIndexFrom_first (fun o => negb (isDisabled o)) options 0%Z)
    as [[Hr _]|[k [x [_ [Hk [Hx _]]]]]].
  - now rewrite Hr.
  - exfalso. apply (Hnone (Z.of_nat k)). exists x. rewrite get_nat.
    split; [exact Hk | now apply negb_true_iff].
Qed.

(** X4: Home, while the list is open, moves the highlight to the first
    non-disabled option, whatever the highlight was, and leaves it when
    every option is disabled. *)
Theorem home_moves_to_first_enabled (options : list Option)
  (highlightedIndex : Z) (onOpenGiven : bool) :
  handleKeyDown options true onOpenGiven highlightedIndex "Home"
  = Normal (mkOutcome true [] (home options highlightedIndex))
  /\ ((exists i, enabledAt options i) ->
      enabledAt options (home options highlightedIndex)
      /\ forall i, (i < home options highlightedIndex)%Z ->
                   ~ enabledAt options i)
  /\ ((forall i, ~ enabledAt options i) ->
      home options highlightedIndex = highlightedIndex).
Proof.
  split; [reflexivity |]. split.
  - apply home_first.
  - apply home_none.
Qed.

Lemma end_last (options : list Option) (highlightedIndex : Z) :
  NoDup (map ident options) ->
  (exists i, enabledAt options i) ->
  enabledAt options (end_ options highlightedIndex)
  /\ forall i, (end_ options highlightedIndex < i)%Z -> ~ enabledAt options i.
Proof.
  intros Hnd Hex. unfold end_.
  pose proof (available_of_enabled options Hex) as Hpos.
  apply Z.ltb_lt in Hpos. rewrite Hpos. apply Z.ltb_lt in Hpos.
  rewrite (indexOf_available_at options Hnd).
  unfold len in *. rewrite (available_positions_length options Hnd) in *.
  set (E := enabledPositions options) in *.
  destruct (nth_error E (List.length E - 1)) as [j|] eqn:Hj.
  - replace (Z.of_nat (List.length E) - 1)%Z
      with (Z.of_nat (List.length E - 1)) by lia.
    rewrite (positionAt_nat E _ j Hj). split.
    + apply enabledAt_place. eauto.
    + apply (none_after_last options (List.length E - 1) j Hj).
      fold E. lia.
  - apply nth_error_None in Hj. lia.
Qed.

Lemma end_none (options : list Option) (highlightedIndex : Z) :
  (forall i, ~ enabledAt options i) ->
  end_ options highlightedIndex = highlightedIndex.
Proof.
  intros Hnone. unfold end_. now rewrite (available_of_none options Hnone).
Qed.

(** X5: End, while the list is open over distinct option objects, moves the
    highlight to the last non-disabled option, and leaves it when every
    option is disabled. *)
Theorem end_moves_to_last_enabled (options : list Option)
  (highlightedIndex : Z) (onOpenGiven : bool) :
  NoDup (map ident options) ->
  handleKeyDown options true onOpenGiven highlightedIndex "End"
  = Normal (mkOutcome true [] (end_ options highlightedIndex))
  /\ ((exists i, enabledAt options i) ->
      enabledAt options (end_ options highlightedIndex)
      /\ forall i, (end_ options highlightedIndex < i)%Z ->
                   ~ enabledAt options i)
  /\ ((forall i, ~ enabledAt options i) ->
      end_ options highlightedIndex = highlightedIndex).
Proof.
  intros Hnd. split; [reflexivity |]. split.
  - now apply end_last.
  - apply end_none.
Qed.

Lemma end_moves_to_last_enabled_witness :
  handleKeyDown Sample.mockOptions true true 0%Z "End"
  = Normal (mkOutcome true [] (end_ Sample.mockOptions 0%Z))
  /\ ((exists i, enabledAt Sample.mockOptions i) ->
      enabledAt Sample.mockOptions (end_ Sample.mockOptions 0%Z)
      /\ forall i, (end_ Sample.mockOptions 0%Z < i)%Z ->
                   ~ enabledAt Sample.mockOptions i)
  /\ ((forall i, ~ enabledAt Sample.mockOptions i) ->
      end_ Sample.mockOptions 0%Z = 0%Z).
Proof.
  exact (end_moves_to_last_enabled Sample.mockOptions 0%Z true
           mockOptions_distinct).
Defined.

(** End stops at Cherry: Date, the last option, is disabled. *)
Example end_skips_disabled : end_ Sample.mockOptions 0%Z = 2%Z.
Proof. reflexivity. Qed.

Lemma nth_error_unique (E : list Z) (a b : nat) (x : Z) :
  NoDup E -> nth_error E a = Some x -> nth_error E b = Some x -> a = b.
Proof.
  intros Hnd Ha Hb. apply (proj1 (NoDup_nth_error E) Hnd).
  - apply nth_error_Some. congruence.
  - congruence.
Qed.

Lemma backward_forward (E : list Z) (prev : Z) :
  StronglySorted Z.lt E -> In prev E ->
  backward E (forward E prev) = prev.
Proof.
  intros Hs Hin. pose proof (StronglySorted_lt_NoDup E Hs) as Hnd.
  assert (Hne : E <> []) by (intros ->; contradiction).
  apply In_nth_error in Hin. destruct Hin as [k Hk].
  destruct (forward_spec E prev Hs Hne) as [m [j [Hj [-> Hf]]]].
  destruct (backward_spec E j Hs Hne) as [m' [j' [Hj' [-> Hb]]]].
  destruct Hf as [[k1 [Hk1 ->]]|[-> Hlast]].
  - pose proof (nth_error_unique E k1 k prev Hnd Hk1 Hk) as ->.
    destruct Hb as [[k2 [Hk2 ->]]|[_ Hfirst]].
    + pose proof (nth_error_unique E (S m') (S k) j Hnd Hk2 Hj) as Heq.
      inversion Heq; subst. congruence.
    + specialize (Hfirst (S k) Hj). discriminate.
  - specialize (Hlast k Hk).
    destruct Hb as [[k2 [Hk2 ->]]|[Hm' _]].
    + pose proof (nth_error_unique E (S m') 0 j Hnd Hk2 Hj). discriminate.
    + assert (m' = k) by lia. subst. congruence.
Qed.

Lemma forward_backward (E : list Z) (prev : Z) :
  StronglySorted Z.lt E -> In prev E ->
  forward E (backward E prev) = prev.
Proof.
  intros Hs Hin. pose proof (StronglySorted_lt_NoDup E Hs) as Hnd.
  assert (Hne : E <> []) by (intros ->; contradiction).
  apply In_nth_error in Hin. destruct Hin as [k Hk].
  destruct (backward_spec E prev Hs Hne) as [m [j [Hj [-> Hb]]]].
  destruct (forward_spec E j Hs Hne) as [m' [j' [Hj' [-> Hf]]]].
  destruct Hb as [[k1 [Hk1 ->]]|[Hm Hfirst]].
  - pose proof (nth_error_unique E (S m) k prev Hnd Hk1 Hk) as <-.
    destruct Hf as [[k2 [Hk2 ->]]|[_ Hlast]].
    + pose proof (nth_error_unique E k2 m j Hnd Hk2 Hj) as ->. congruence.
    + specialize (Hlast m Hj).
      assert ((S m < List.length E)%nat)
        by (apply nth_error_Some; congruence).
      lia.
  - specialize (Hfirst k Hk). subst k.
    destruct Hf as [[k2 [Hk2 ->]]|[-> _]].
    + pose proof (nth_error_unique E k2 m j Hnd Hk2 Hj) as ->.
      assert ((S m < List.length E)%nat)
        by (apply nth_error_Some; congruence).
      lia.
    + congruence.
Qed.

(** X6: From a non-disabled option of a list of distinct objects, ArrowUp
    undoes ArrowDown and ArrowDown undoes ArrowUp, also across the wrap. *)
Theorem arrow_keys_undo_each_other (options : list Option) (prev : Z) :
  NoDup (map ident options) -> enabledAt options prev ->
  arrowUp options (arrowDown options prev) = prev
  /\ arrowDown options (arrowUp options prev) = prev.
Proof.
  intros Hnd Hen. apply enabledPositions_enabledAt in Hen.
  rewrite !(arrowDown_forward options Hnd), !(arrowUp_backward options Hnd).
  split.
  - apply backward_forward; [apply enabledPositions_sorted | exact Hen].
  - apply forward_backward; [apply enabledPositions_sorted | exact Hen].
Qed.

Lemma arrow_keys_undo_each_other_witness :
  arrowUp Sample.mockOptions (arrowDown Sample.mockOptions 2%Z) = 2%Z
  /\ arrowDown Sample.mockOptions (arrowUp Sample.mockOptions 2%Z) = 2%Z.
Proof.
  apply (arrow_keys_undo_each_other Sample.mockOptions 2%Z
           mockOptions_distinct).
  exists Sample.cherry. split; reflexivity.
Defined.

End HomeEnd.

Section KeySequences.

Import JsArray Hooks Spec Positions.
Local Open Scope string_scope.

Lemma key_keeps_enabled (options : list Option) (onOpenGiven : bool)
  (highlightedIndex : Z) (key : string) (out : KeyOutcome) :
  NoDup (map ident options) ->
  highlightedIndex = (-1)%Z \/ enabledAt options highlightedIndex ->
  handleKeyDown options true onOpenGiven highlightedIndex key = Normal out ->
  nextHighlighted out = (-1)%Z \/ enabledAt options (nextHighlighted out).
Proof.
  intros Hnd Hhi. unfold handleKeyDown. simpl.
  destruct (key =? "ArrowDown").
  { intros H; inversion H; subst; simpl.
    destruct (no_enabled_dec options) as [Hex|Hnone].
    - right. rewrite (arrowDown_forward options Hnd).
      now apply forward_enabled.
    - left. now apply arrows_without_enabled. }
  destruct (key =? "ArrowUp").
  { intros H; inversion H; subst; simpl.
    destruct (no_enabled_dec options) as [Hex|Hnone].
    - right. rewrite (arrowUp_backward options Hnd).
      now apply backward_enabled.
    - left. now apply arrows_without_enabled. }
  destruct ((key =? "Enter") || (key =? " ")).
  { destruct (enter options highlightedIndex); [| discriminate].
    intros H; inversion H; subst; exact Hhi. }
  destruct (key =? "Escape"); [intros H; inversion H; subst; exact Hhi |].
  destruct (key =? "Home").
  { intros H; inversion H; subst; simpl.
    destruct (no_enabled_dec options) as [Hex|Hnone].
    - right. now apply home_first.
    - now rewrite (home_none options highlightedIndex Hnone). }
  destruct (key =? "End").
  { intros H; inversion H; subst; simpl.
    destruct (no_enabled_dec options) as [Hex|Hnone].
    - right. now apply end_last.
    - now rewrite (end_none options highlightedIndex Hnone). }
  intros H; inversion H; subst; exact Hhi.
Qed.

(** X7: Over a fixed list of distinct option objects, a highlight that is -1
    or on a non-disabled option stays so under every sequence of key
    presses handled while the list is open: the keys never throw, never
    leave the list and never rest on a disabled option. *)
Theorem highlight_stays_on_enabled (options : list Option)
  (onOpenGiven : bool) (highlightedIndex : Z) (keys : list string) :
  NoDup (map ident options) ->
  highlightedIndex = (-1)%Z \/ enabledAt options highlightedIndex ->
  exists final,
    pressKeys options onOpenGiven highlightedIndex keys = Normal final
    /\ (final = (-1)%Z \/ enabledAt options final).
Proof.
  intros Hnd. revert highlightedIndex.
  induction keys as [|key keys IH]; intros hi Hhi; simpl.
  - exists hi. auto.
  - destruct (handleKeyDown_total options true onOpenGiven hi key)
      as [out [Hout _]].
    rewrite Hout. apply IH.
    eapply key_keeps_enabled; eauto.
Qed.

Lemma highlight_stays_on_enabled_witness :
  exists final,
    pressKeys Sample.mockOptions true (-1)%Z
      ["ArrowDown"; "ArrowDown"; "End"; "ArrowDown"; "x"; "ArrowUp"]
    = Normal final
    /\ (final = (-1)%Z \/ enabledAt Sample.mockOptions final).
Proof.
  apply (highlight_stays_on_enabled Sample.mockOptions true (-1)%Z
           ["ArrowDown"; "ArrowDown"; "End"; "ArrowDown"; "x"; "ArrowUp"]
           mockOptions_distinct).
  left. reflexivity.
Defined.

Example pressKeys_round :
  pressKeys Sample.mockOptions true (-1)%Z
    ["ArrowDown"; "ArrowDown"; "End"; "ArrowDown"; "x"; "ArrowUp"]
  = Normal 2%Z.
Proof. reflexivity. Qed.

Lemma enter_calls (options : list Option) (highlightedIndex : Z)
  (calls : list Callback) :
  enter options highlightedIndex = Normal calls ->
  calls = []
  \/ exists o, calls = [OnSelect o]
               /\ get options highlightedIndex = Some o
               /\ isDisabled o = false.
Proof.
  unfold enter.
  destruct ((0 <=? highlightedIndex)%Z
            && (highlightedIndex <? len options)%Z);
    [| intros H; inversion H; now left].
  destruct (get options highlightedIndex) as [o|]; [| discriminate].
  destruct (isDisabled o) eqn:Hd; simpl; intros H; inversion H.
  - now left.
  - right. exists o. auto.
Qed.

(** The callbacks of one key press: none, [onOpen] alone on a closed
    list, [onClose] alone for Escape, or [onSelect] alone, for Enter or
    Space on an open list, with the highlighted option, which is not
    disabled. *)
Lemma called_shapes (options : list Option) (isOpen onOpenGiven : bool)
  (highlightedIndex : Z) (key : string) (out : KeyOutcome) :
  handleKeyDown options isOpen onOpenGiven highlightedIndex key = Normal out ->
  called out = []
  \/ (called out = [OnOpen] /\ isOpen = false)
  \/ (called out = [OnClose] /\ isOpen = true /\ key = "Escape")
  \/ exists o, called out = [OnSelect o]
               /\ isOpen = true /\ (key = "Enter" \/ key = " ")
               /\ get options highlightedIndex = Some o
               /\ isDisabled o = false.
Proof.
  unfold handleKeyDown. destruct isOpen; simpl.
  - destruct (key =? "ArrowDown"); [intros H; inversion H; now left |].
    destruct (key =? "ArrowUp"); [intros H; inversion H; now left |].
    destruct (String.eqb_spec key "Enter") as [He|He];
      destruct (String.eqb_spec key " ") as [Hs|Hs]; simpl;
      try (destruct (enter options highlightedIndex) as [calls|] eqn:Hc;
           [| discriminate];
           intros H; inversion H; subst out; simpl;
           destruct (enter_calls _ _ _ Hc) as [->|[o [-> [Hg Hd]]]];
           [now left | right; right; right; exists o; auto 6]).
    destruct (String.eqb_spec key "Escape") as [Hx|Hx].
    { intros H; inversion H; simpl. right; right; left. auto. }
    destruct (key =? "Home"); [intros H; inversion H; now left |].
    destruct (key =? "End"); intros H; inversion H; now left.
  - destruct ((key =? "ArrowDown") || (key =? "ArrowUp") || (key =? "Enter")
              || (key =? " ")); intros H; inversion H; simpl.
    + destruct onOpenGiven; [right; left; auto | now left].
    + now left.
Qed.

(** X8: The selection callback is invoked by Enter or Space on an open list
    only, once, and with the highlighted option, which is not disabled;
    and on such an option these keys do invoke it. *)
Theorem onSelect_only_for_highlighted (options : list Option)
  (isOpen onOpenGiven : bool) (highlightedIndex : Z) (key : string) :
  (forall out o,
      handleKeyDown options isOpen onOpenGiven highlightedIndex key
      = Normal out ->
      In (OnSelect o) (called out) ->
      called out = [OnSelect o] /\ isOpen = true
      /\ (key = "Enter" \/ key = " ")
      /\ get options highlightedIndex = Some o /\ isDisabled o = false)
  /\ (forall o,
         isOpen = true -> key = "Enter" \/ key = " " ->
         get options highlightedIndex = Some o -> isDisabled o = false ->
         handleKeyDown options isOpen onOpenGiven highlightedIndex key
         = Normal (mkOutcome true [OnSelect o] highlightedIndex)).
Proof.
  split.
  - intros out o Hout Hin.
    destruct (called_shapes _ _ _ _ _ _ Hout)
      as [Hc|[[Hc _]|[[Hc _]|[o' [Hc [Ho [Hk [Hg Hd]]]]]]]];
      rewrite Hc in Hin; simpl in Hin;
      try (destruct Hin as [Hin|[]]; discriminate Hin);
      try contradiction.
    destruct Hin as [Hin|[]]. inversion Hin; subst o'. auto.
  - intros o -> Hkey Hget Hd.
    pose proof (get_Some_range _ _ _ Hget) as Hr.
    assert (Henter : enter options highlightedIndex = Normal [OnSelect o]).
    { unfold enter.
      assert (Hguard : (0 <=? highlightedIndex)%Z
                       && (highlightedIndex <? len options)%Z = true).
      { apply andb_true_iff. split; [apply Z.leb_le | apply Z.ltb_lt]; lia. }
      now rewrite Hguard, Hget, Hd. }
    unfold handleKeyDown.
    destruct Hkey as [-> | ->]; simpl; now rewrite Henter.
Qed.

End KeySequences.

(* ================================================================== *)
(** * InputDropdown: keys, selection and the controlled value *)
(* ================================================================== *)

Section Component.

Import JsArray Spec.
Local Open Scope string_scope.

Lemma four_keys (key : string) :
  (key =? "Enter") || (key =? " ") || (key =? "ArrowDown")
  || (key =? "ArrowUp")
  = (key =? "ArrowDown") || (key =? "ArrowUp") || (key =? "Enter")
    || (key =? " ").
Proof.
  destruct (key =? "Enter"), (key =? " "), (key =? "ArrowDown"),
    (key =? "ArrowUp"); reflexivity.
Qed.

Lemma four_keys_true (key : string) :
  (key =? "ArrowDown") || (key =? "ArrowUp") || (key =? "Enter")
  || (key =? " ") = true
  <-> key = "ArrowDown" \/ key = "ArrowUp" \/ key = "Enter" \/ key = " ".
Proof.
  rewrite !orb_true_iff, !String.eqb_eq. tauto.
Qed.

(** X9: While the list is closed, the hook's document key listener and
    the trigger's key handler compute the same next state from a key:
    each opens the list on ArrowDown, ArrowUp, Enter and Space unless the
    component is disabled, and leaves the state as it is on every other
    key; neither of the two handlers changes the selection or the query,
    and the listener notifies no change. *)
Theorem closed_list_keys (p : InputDropdown.Props) (st : InputDropdown.State)
  (highlightedIndex : Z) (key : string) :
  InputDropdown.isOpen st = false ->
  InputDropdown.onKeyDown p st highlightedIndex key
  = Normal (InputDropdown.handleTriggerKeyDown p st key, [])
  /\ InputDropdown.internalValue (InputDropdown.handleTriggerKeyDown p st key)
     = InputDropdown.internalValue st
  /\ InputDropdown.searchQuery (InputDropdown.handleTriggerKeyDown p st key)
     = InputDropdown.searchQuery st
  /\ (InputDropdown.isOpen (InputDropdown.handleTriggerKeyDown p st key) = true
      <-> InputDropdown.propDisabled p = false
          /\ (key = "ArrowDown" \/ key = "ArrowUp" \/ key = "Enter"
              \/ key = " ")).
Proof.
  intros Hclosed.
  unfold InputDropdown.onKeyDown, InputDropdown.handleTriggerKeyDown,
    Hooks.handleKeyDown.
  rewrite Hclosed, four_keys. simpl.
  pose proof (four_keys_true key) as Hfour.
  destruct ((key =? "ArrowDown") || (key =? "ArrowUp") || (key =? "Enter")
            || (key =? " ")); simpl.
  - unfold InputDropdown.handleOpen.
    destruct (InputDropdown.propDisabled p); simpl;
      (split; [reflexivity |]); (split; [reflexivity |]);
      (split; [reflexivity |]).
    + rewrite Hclosed. split; [discriminate | intros [H _]; discriminate].
    + split; [intros _; split; [reflexivity | now apply Hfour] | reflexivity].
  - assert (Hnot : ~ (key = "ArrowDown" \/ key = "ArrowUp" \/ key = "Enter"
                      \/ key = " "))
      by (intros Hk; apply Hfour in Hk; discriminate).
    destruct (InputDropdown.propDisabled p), (key =? "Escape"); simpl;
      (split; [reflexivity |]); (split; [reflexivity |]);
      (split; [reflexivity |]); rewrite ?Hclosed;
      (split; [discriminate | intros [_ Hk]; contradiction]).
Qed.

Lemma closed_list_keys_witness :
  InputDropdown.onKeyDown Sample.singleProps
    (InputDropdown.mkState false "" Undefined) (-1)%Z "Enter"
  = Normal
      (InputDropdown.handleTriggerKeyDown Sample.singleProps
         (InputDropdown.mkState false "" Undefined) "Enter", [])
  /\ InputDropdown.internalValue
       (InputDropdown.handleTriggerKeyDown Sample.singleProps
          (InputDropdown.mkState false "" Undefined) "Enter")
     = InputDropdown.internalValue (InputDropdown.mkState false "" Undefined)
  /\ InputDropdown.searchQuery
       (InputDropdown.handleTriggerKeyDown Sample.singleProps
          (InputDropdown.mkState false "" Undefined) "Enter")
     = InputDropdown.searchQuery (InputDropdown.mkState false "" Undefined)
  /\ (InputDropdown.isOpen
        (InputDropdown.handleTriggerKeyDown Sample.singleProps
           (InputDropdown.mkState false "" Undefined) "Enter") = true
      <-> InputDropdown.propDisabled Sample.singleProps = false
          /\ ("Enter" = "ArrowDown" \/ "Enter" = "ArrowUp"
              \/ "Enter" = "Enter" \/ "Enter" = " ")).
Proof.
  exact (closed_list_keys Sample.singleProps
           (InputDropdown.mkState false "" Undefined) (-1)%Z "Enter" eq_refl).
Defined.

(** Enter on the closed list of a component that is not disabled: both
    handlers open it. *)
Example closed_list_enter_opens :
  InputDropdown.onKeyDown Sample.singleProps
    (InputDropdown.mkState false "" Undefined) (-1)%Z "Enter"
  = Normal (InputDropdown.mkState true "" Undefined, [])
  /\ InputDropdown.handleTriggerKeyDown Sample.singleProps
       (InputDropdown.mkState false "" Undefined) "Enter"
     = InputDropdown.mkState true "" Undefined.
Proof. split; reflexivity. Qed.

Lemma filteredOptions_after_close (p : InputDropdown.Props)
  (st : InputDropdown.State) :
  InputDropdown.loading p = false ->
  InputDropdown.filteredOptions p (InputDropdown.handleClose st)
  = InputDropdown.options p.
Proof.
  intros Hl. unfold InputDropdown.filteredOptions. rewrite Hl. simpl.
  now destruct (InputDropdown.searchable p).
Qed.

(** X10: Escape on an open list closes it and clears the search query, so the
    next opening shows every option again; the selection is left alone,
    no change is notified, and the hook's next render resets the
    highlight.  Escape on the trigger does the same. *)
Theorem escape_closes (p : InputDropdown.Props) (st : InputDropdown.State)
  (highlightedIndex : Z) :
  InputDropdown.isOpen st = true ->
  InputDropdown.onKeyDown p st highlightedIndex "Escape"
  = Normal (InputDropdown.handleClose st, [])
  /\ InputDropdown.isOpen (InputDropdown.handleClose st) = false
  /\ InputDropdown.internalValue (InputDropdown.handleClose st)
     = InputDropdown.internalValue st
  /\ (InputDropdown.loading p = false ->
      InputDropdown.filteredOptions p (InputDropdown.handleClose st)
      = InputDropdown.options p)
  /\ Hooks.highlightedIndex
       (Hooks.render (Hooks.mkNav true highlightedIndex)
          (InputDropdown.isOpen (InputDropdown.handleClose st)))
     = (-1)%Z
  /\ (InputDropdown.propDisabled p = false ->
      InputDropdown.handleTriggerKeyDown p st "Escape"
      = InputDropdown.handleClose st).
Proof.
  intros Hopen. split.
  - unfold InputDropdown.onKeyDown, Hooks.handleKeyDown.
    rewrite Hopen. reflexivity.
  - split; [reflexivity |]. split; [reflexivity |].
    split; [apply filteredOptions_after_close |].
    split; [reflexivity |].
    intros Hd. unfold InputDropdown.handleTriggerKeyDown.
    rewrite Hd, Hopen. reflexivity.
Qed.

Lemma escape_closes_witness :
  InputDropdown.onKeyDown
    (InputDropdown.mkProps Sample.mockOptions Undefined false false true None
       240 false true)
    (InputDropdown.mkState true "an" Undefined) 1%Z "Escape"
  = Normal
      (InputDropdown.handleClose (InputDropdown.mkState true "an" Undefined),
       [])
  /\ InputDropdown.isOpen
       (InputDropdown.handleClose (InputDropdown.mkState true "an" Undefined))
     = false
  /\ InputDropdown.internalValue
       (InputDropdown.handleClose (InputDropdown.mkState true "an" Undefined))
     = InputDropdown.internalValue (InputDropdown.mkState true "an" Undefined)
  /\ (InputDropdown.loading
        (InputDropdown.mkProps Sample.mockOptions Undefined false false true
           None 240 false true) = false ->
      InputDropdown.filteredOptions
        (InputDropdown.mkProps Sample.mockOptions Undefined false false true
           None 240 false true)
        (InputDropdown.handleClose (InputDropdown.mkState true "an" Undefined))
      = InputDropdown.options
          (InputDropdown.mkProps Sample.mockOptions Undefined false false true
             None 240 false true))
  /\ Hooks.highlightedIndex
       (Hooks.render (Hooks.mkNav true 1%Z)
          (InputDropdown.isOpen
             (InputDropdown.handleClose
                (InputDropdown.mkState true "an" Undefined))))
     = (-1)%Z
  /\ (InputDropdown.propDisabled
        (InputDropdown.mkProps Sample.mockOptions Undefined false false true
           None 240 false true) = false ->
      InputDropdown.handleTriggerKeyDown
        (InputDropdown.mkProps Sample.mockOptions Undefined false false true
           None 240 false true)
        (InputDropdown.mkState true "an" Undefined) "Escape"
      = InputDropdown.handleClose (InputDropdown.mkState true "an" Undefined)).
Proof.
  exact (escape_closes
           (InputDropdown.mkProps Sample.mockOptions Undefined false false true
              None 240 false true)
           (InputDropdown.mkState true "an" Undefined) 1%Z eq_refl).
Defined.

End Component.

Section Selecting.

Import JsArray Spec InputDropdown.
Local Open Scope string_scope.

Lemma handleSelect_single (p : Props) (st : State) (o : Option) :
  multiple p = false -> isDisabled o = false ->
  handleSelect p st o
  = (setInternalValue p (if closeOnSelect p then handleClose st else st)
       (Single o),
     [Single o]).
Proof.
  intros Hm Hd. unfold handleSelect. rewrite Hd, Hm. reflexivity.
Qed.

(** X11: Selecting a non-disabled option in the uncontrolled single-select
    notifies that option, makes it the current value, the only selected
    label, the displayed text and the selected option, and closes the list
    with an empty query exactly when [closeOnSelect] is set. *)
Theorem select_in_single_mode (p : Props) (st : State) (o : Option) :
  multiple p = false -> isDisabled o = false -> propValue p = Undefined ->
  snd (handleSelect p st o) = [Single o]
  /\ currentValue p (fst (handleSelect p st o)) = Single o
  /\ selectedLabels p (fst (handleSelect p st o)) = [label o]
  /\ displayValue p (fst (handleSelect p st o)) = label o
  /\ isOptionSelected p (fst (handleSelect p st o)) o = Normal true
  /\ (closeOnSelect p = true ->
      InputDropdown.isOpen (fst (handleSelect p st o)) = false
      /\ searchQuery (fst (handleSelect p st o)) = "")
  /\ (closeOnSelect p = false ->
      InputDropdown.isOpen (fst (handleSelect p st o)) = InputDropdown.isOpen st
      /\ searchQuery (fst (handleSelect p st o)) = searchQuery st).
Proof.
  intros Hm Hd Hun. rewrite (handleSelect_single p st o Hm Hd). simpl.
  assert (Hcv : currentValue p
                  (setInternalValue p
                     (if closeOnSelect p then handleClose st else st)
                     (Single o)) = Single o).
  { unfold currentValue, setInternalValue. now rewrite Hun. }
  split; [reflexivity |]. split; [exact Hcv |].
  split; [unfold selectedLabels; now rewrite Hcv, Hm |].
  split; [unfold displayValue, selectedLabels; now rewrite Hcv, Hm |].
  split.
  { unfold isOptionSelected. rewrite Hcv, Hm. simpl.
    now rewrite String.eqb_refl. }
  unfold setInternalValue. rewrite Hun.
  split; intros Hc; rewrite Hc; simpl; auto.
Qed.

Lemma select_in_single_mode_witness :
  snd (handleSelect Sample.singleProps (mkState true "an" Undefined)
         Sample.banana) = [Single Sample.banana]
  /\ currentValue Sample.singleProps
       (fst (handleSelect Sample.singleProps (mkState true "an" Undefined)
               Sample.banana)) = Single Sample.banana
  /\ selectedLabels Sample.singleProps
       (fst (handleSelect Sample.singleProps (mkState true "an" Undefined)
               Sample.banana)) = [label Sample.banana]
  /\ displayValue Sample.singleProps
       (fst (handleSelect Sample.singleProps (mkState true "an" Undefined)
               Sample.banana)) = label Sample.banana
  /\ isOptionSelected Sample.singleProps
       (fst (handleSelect Sample.singleProps (mkState true "an" Undefined)
               Sample.banana)) Sample.banana = Normal true
  /\ (closeOnSelect Sample.singleProps = true ->
      InputDropdown.isOpen
        (fst (handleSelect Sample.singleProps (mkState true "an" Undefined)
                Sample.banana)) = false
      /\ searchQuery
           (fst (handleSelect Sample.singleProps (mkState true "an" Undefined)
                   Sample.banana)) = "")
  /\ (closeOnSelect Sample.singleProps = false ->
      InputDropdown.isOpen
        (fst (handleSelect Sample.singleProps (mkState true "an" Undefined)
                Sample.banana))
      = InputDropdown.isOpen (mkState true "an" Undefined)
      /\ searchQuery
           (fst (handleSelect Sample.singleProps (mkState true "an" Undefined)
                   Sample.banana))
         = searchQuery (mkState true "an" Undefined)).
Proof.
  exact (select_in_single_mode Sample.singleProps
           (mkState true "an" Undefined) Sample.banana eq_refl eq_refl
           eq_refl).
Defined.

Lemma filteredOptions_visible (p : Props) (st : State) (o : Option) :
  In o (filteredOptions p st) ->
  In o (options p)
  /\ (searchable p = true ->
      JsString.allWhiteSpace (searchQuery st) = false ->
      matchesQuery (searchQuery st) o).
Proof.
  unfold filteredOptions. destruct (loading p); [contradiction |].
  destruct (searchable p).
  - intros Hin. split; [eapply filterOptions_subset; eauto |].
    intros _ Hq. rewrite (filterOptions_not_blank _ _ Hq) in Hin.
    apply filter_In in Hin. destruct Hin as [_ Hm].
    now apply matchesLowercaseQuery_spec.
  - intros Hin. split; [exact Hin | discriminate].
Qed.

(** X12: The hook's document key listener changes the selection only by
    selecting the highlighted option of the open, filtered list: whenever
    a run of the listener notifies a change, the new state and the
    notification are those of the selection handler on an option of the
    list that is not disabled and, under a query that is not blank in a
    searchable component, matches the query. *)
Theorem key_selects_visible_option (p : Props) (st st' : State)
  (highlightedIndex : Z) (key : string) (notified : list Selection) :
  onKeyDown p st highlightedIndex key = Normal (st', notified) ->
  notified = []
  \/ exists o,
       (st', notified) = handleSelect p st o
       /\ InputDropdown.isOpen st = true
       /\ get (filteredOptions p st) highlightedIndex = Some o
       /\ In o (options p)
       /\ isDisabled o = false
       /\ (searchable p = true ->
           JsString.allWhiteSpace (searchQuery st) = false ->
           matchesQuery (searchQuery st) o).
Proof.
  unfold onKeyDown.
  destruct (Hooks.handleKeyDown (filteredOptions p st)
              (InputDropdown.isOpen st) true highlightedIndex key)
    as [out|] eqn:Hout; [| discriminate].
  intros H. injection H as Hfold.
  destruct (called_shapes _ _ _ _ _ _ Hout)
    as [Hc|[[Hc _]|[[Hc _]|[o [Hc [Ho [Hk [Hg Hd]]]]]]]];
    rewrite Hc in Hfold.
  - simpl in Hfold. inversion Hfold. now left.
  - simpl in Hfold. inversion Hfold. now left.
  - simpl in Hfold. inversion Hfold. now left.
  - cbn [fold_left runCallback fst snd] in Hfold.
    right. exists o.
    assert (Hin : In o (filteredOptions p st)).
    { apply get_Some_nat in Hg. destruct Hg as [k [_ Hk']].
      eapply nth_error_In; eauto. }
    destruct (filteredOptions_visible p st o Hin) as [Hopt Hmatch].
    split.
    + rewrite <- Hfold. now destruct (handleSelect p st o).
    + auto 6.
Qed.

Lemma key_selects_visible_option_witness :
  [Single Sample.banana] = []
  \/ exists o,
       (mkState false "" (Single Sample.banana), [Single Sample.banana])
       = handleSelect Sample.singleProps (mkState true "an" Undefined) o
       /\ InputDropdown.isOpen (mkState true "an" Undefined) = true
       /\ get (filteredOptions Sample.singleProps
                 (mkState true "an" Undefined)) 0%Z = Some o
       /\ In o (options Sample.singleProps)
       /\ isDisabled o = false
       /\ (searchable Sample.singleProps = true ->
           JsString.allWhiteSpace (searchQuery (mkState true "an" Undefined))
           = false ->
           matchesQuery (searchQuery (mkState true "an" Undefined)) o).
Proof.
  exact (key_selects_visible_option Sample.singleProps
           (mkState true "an" Undefined)
           (mkState false "" (Single Sample.banana)) 0%Z "Enter"
           [Single Sample.banana] eq_refl).
Defined.

(** X13: In the controlled component the selection handler never touches the
    internal value: the current value and the selected labels stay those
    of the [value] property, and the change is only notified. *)
Theorem controlled_value_stays (p : Props) (st : State) (o : Option) :
  propValue p <> Undefined ->
  internalValue (fst (handleSelect p st o)) = internalValue st
  /\ currentValue p (fst (handleSelect p st o)) = propValue p
  /\ selectedLabels p (fst (handleSelect p st o)) = selectedLabels p st
  /\ (isDisabled o = false ->
      exists newValue, snd (handleSelect p st o) = [newValue]).
Proof.
  intros Hc.
  assert (Hcur : forall s, currentValue p s = propValue p).
  { intros s. unfold currentValue.
    destruct (propValue p); [contradiction | reflexivity | reflexivity]. }
  assert (Hset : forall s v, setInternalValue p s v = s).
  { intros s v. unfold setInternalValue.
    destruct (propValue p); [contradiction | reflexivity | reflexivity]. }
  split.
  { unfold handleSelect. destruct (isDisabled o); [reflexivity |].
    destruct (multiple p), (currentValue p st); simpl; rewrite Hset;
      try reflexivity; now destruct (closeOnSelect p). }
  split; [apply Hcur |].
  split; [unfold selectedLabels; now rewrite !Hcur |].
  intros Hd. unfold handleSelect. rewrite Hd.
  destruct (multiple p), (currentValue p st); simpl; eauto.
Qed.

Lemma controlled_value_stays_witness :
  internalValue
    (fst (handleSelect Sample.controlledProps (mkState true "" Undefined)
            Sample.apple))
  = internalValue (mkState true "" Undefined)
  /\ currentValue Sample.controlledProps
       (fst (handleSelect Sample.controlledProps (mkState true "" Undefined)
               Sample.apple))
     = propValue Sample.controlledProps
  /\ selectedLabels Sample.controlledProps
       (fst (handleSelect Sample.controlledProps (mkState true "" Undefined)
               Sample.apple))
     = selectedLabels Sample.controlledProps (mkState true "" Undefined)
  /\ (isDisabled Sample.apple = false ->
      exists newValue,
        snd (handleSelect Sample.controlledProps (mkState true "" Undefined)
               Sample.apple) = [newValue]).
Proof.
  apply (controlled_value_stays Sample.controlledProps
           (mkState true "" Undefined) Sample.apple).
  discriminate.
Defined.

Lemma isSelected_after_toggle (cv : list Option) (o o' : Option) :
  existsb (fun item => value item =? value o') (toggled cv o)
  = if value o' =? value o
    then negb (existsb (fun item => value item =? value o) cv)
    else existsb (fun item => value item =? value o') cv.
Proof.
  destruct (String.eqb_spec (value o') (value o)) as [Heq|Hne].
  - rewrite Heq.
    pose proof (toggled_membership o cv) as Hm.
    rewrite <- !isSelected_values in Hm.
    destruct (existsb _ (toggled cv o)), (existsb _ cv); simpl;
      try reflexivity; exfalso.
    + now apply (proj1 Hm).
    + assert (Hf : false = true) by (apply (proj2 Hm); discriminate).
      discriminate Hf.
  - assert (Hiff : In (value o') (map value (toggled cv o))
                   <-> In (value o') (map value cv)).
    { destruct (selected_dec o cv) as [H|H].
      - rewrite (toggled_selected _ _ H), others_values. tauto.
      - rewrite (toggled_unselected _ _ H), map_app, in_app_iff. simpl.
        split; [intros [Hin|[Heq|[]]]; congruence || assumption | tauto]. }
    rewrite <- !isSelected_values in Hiff.
    destruct (existsb _ (toggled cv o)), (existsb _ cv); try reflexivity;
      exfalso.
    + assert (Hf : false = true) by (now apply (proj1 Hiff)).
      discriminate Hf.
    + assert (Hf : false = true) by (now apply (proj2 Hiff)).
      discriminate Hf.
Qed.

(** X14: In multi mode with an array as the current value, the selection
    handler leaves the list open and the query as typed, whatever
    [closeOnSelect] says; in the uncontrolled component the check mark of
    the selected option flips and the check marks of the options with
    another value stay. *)
Theorem multi_select_keeps_list_open (p : Props) (st : State)
  (cv : list Option) (o : Option) :
  multiple p = true -> currentValue p st = Multi cv ->
  InputDropdown.isOpen (fst (handleSelect p st o)) = InputDropdown.isOpen st
  /\ searchQuery (fst (handleSelect p st o)) = searchQuery st
  /\ (propValue p = Undefined -> isDisabled o = false ->
      forall o' selected,
        isOptionSelected p st o' = Normal selected ->
        isOptionSelected p (fst (handleSelect p st o)) o'
        = Normal (if value o' =? value o then negb selected else selected)).
Proof.
  intros Hm Hcv.
  assert (Hstate : fst (handleSelect p st o) = st
                   \/ (isDisabled o = false
                       /\ fst (handleSelect p st o)
                          = setInternalValue p st (Multi (toggled cv o)))).
  { destruct (isDisabled o) eqn:Hd.
    - left. unfold handleSelect. now rewrite Hd.
    - right. split; [reflexivity |].
      now rewrite (handleSelect_multi p st cv o Hm Hcv Hd). }
  assert (Hkeep : forall v,
             InputDropdown.isOpen (setInternalValue p st v)
             = InputDropdown.isOpen st
             /\ searchQuery (setInternalValue p st v) = searchQuery st).
  { intros v. unfold setInternalValue. now destruct (propValue p). }
  split; [destruct Hstate as [->|[_ ->]]; [reflexivity | apply Hkeep] |].
  split; [destruct Hstate as [->|[_ ->]]; [reflexivity | apply Hkeep] |].
  intros Hun Hd o' selected Hsel.
  rewrite (handleSelect_multi p st cv o Hm Hcv Hd). simpl.
  unfold isOptionSelected in *.
  rewrite Hcv, Hm in Hsel. inversion Hsel; subst selected.
  assert (Hcv' : currentValue p (setInternalValue p st (Multi (toggled cv o)))
                 = Multi (toggled cv o))
    by (unfold currentValue, setInternalValue; now rewrite Hun).
  rewrite Hcv', Hm, isSelected_after_toggle.
  destruct (String.eqb_spec (value o') (value o)) as [Heq|Hne];
    [now rewrite Heq | reflexivity].
Qed.

Lemma multi_select_keeps_list_open_witness :
  InputDropdown.isOpen
    (fst (handleSelect Sample.multiProps
            (mkState true "a" (Multi [Sample.apple])) Sample.banana))
  = InputDropdown.isOpen (mkState true "a" (Multi [Sample.apple]))
  /\ searchQuery
       (fst (handleSelect Sample.multiProps
               (mkState true "a" (Multi [Sample.apple])) Sample.banana))
     = searchQuery (mkState true "a" (Multi [Sample.apple]))
  /\ (propValue Sample.multiProps = Undefined ->
      isDisabled Sample.banana = false ->
      forall o' selected,
        isOptionSelected Sample.multiProps
          (mkState true "a" (Multi [Sample.apple])) o' = Normal selected ->
        isOptionSelected Sample.multiProps
          (fst (handleSelect Sample.multiProps
                  (mkState true "a" (Multi [Sample.apple])) Sample.banana)) o'
        = Normal (if value o' =? value Sample.banana
                  then negb selected else selected)).
Proof.
  exact (multi_select_keeps_list_open Sample.multiProps
           (mkState true "a" (Multi [Sample.apple])) [Sample.apple]
           Sample.banana eq_refl eq_refl).
Defined.

(** The array matters: in multi mode with a current value that is not an
    array, [handleSelect] takes its other branch, closes the list, clears
    the query and notifies the option alone. *)
Example multi_select_without_array :
  handleSelect Sample.multiProps (mkState true "a" Undefined) Sample.apple
  = (mkState false "" (Single Sample.apple), [Single Sample.apple]).
Proof. reflexivity. Qed.

End Selecting.

(* ================================================================== *)
(** * useVirtualScroll: the rendered block *)
(* ================================================================== *)

Section RenderedBlock.

Import JsArray Hooks Spec.

Lemma slice_length_exact {T : Type} (l : list T) (a b : Z) :
  0 <= a -> 0 <= b ->
  Z.of_nat (List.length (slice l a b))
  = Z.max 0 (Z.min b (len l) - Z.min a (len l)).
Proof.
  intros Ha Hb. unfold slice.
  assert (Hs : (a <? 0) = false) by (apply Z.ltb_ge; lia).
  assert (He : (b <? 0) = false) by (apply Z.ltb_ge; lia).
  rewrite Hs, He, length_firstn, length_skipn. unfold len. lia.
Qed.

Lemma slice_segment {T : Type} (l : list T) (a b : Z) :
  exists before after, l = before ++ slice l a b ++ after.
Proof.
  unfold slice.
  set (k := Z.to_nat (if a <? 0 then Z.max (len l + a) 0
                      else Z.min a (len l))).
  set (n := Z.to_nat _).
  exists (firstn k l), (skipn n (skipn k l)).
  now rewrite (firstn_skipn n (skipn k l)), (firstn_skipn k l).
Qed.

Lemma map_item_mapFrom {T : Type} (l : list T) (first i : Z) :
  map item (mapFrom (fun x index => mkRow x (first + index)) l i) = l.
Proof.
  revert i. induction l as [|x l IH]; intros i; simpl;
    [reflexivity | now rewrite IH].
Qed.

(** X15: The windowed rows are consecutive rows of the list, in list order:
    the row at place [k] of the window has the index [startIndex + k] and
    carries the item the list has at that index. *)
Theorem visibleItems_consecutive (T : Type) (items : list T)
  (itemHeight containerHeight overscan scrollTop : Z) (k : nat)
  (r : VirtualRow T) :
  0 < itemHeight ->
  nth_error
    (visibleItems
       (useVirtualScroll items itemHeight containerHeight overscan scrollTop))
    k = Some r ->
  index r = startIndex itemHeight overscan scrollTop + Z.of_nat k
  /\ get items (index r) = Some (item r).
Proof.
  intros _ Hk. split.
  - unfold useVirtualScroll, mapi in Hk. cbn [visibleItems] in Hk.
    rewrite nth_error_mapFrom in Hk.
    destruct (nth_error (slice items _ _) k); [| discriminate].
    simpl in Hk. inversion Hk. reflexivity.
  - apply visibleItems_in_bounds with (itemHeight := itemHeight)
      (containerHeight := containerHeight) (overscan := overscan)
      (scrollTop := scrollTop).
    eapply nth_error_In; eauto.
Qed.

Lemma visibleItems_consecutive_witness :
  index (mkRow 7%nat 7) = startIndex 40 5 400 + Z.of_nat 2
  /\ get (seq 0 200) (index (mkRow 7%nat 7)) = Some (item (mkRow 7%nat 7)).
Proof.
  apply (visibleItems_consecutive nat (seq 0 200) 40 240 5 400 2
           (mkRow 7%nat 7)); [lia | reflexivity].
Defined.

(** X16: The rendered block covers what is visible: it is translated to
    [offsetY], which is the top of its first row and lies at or above the
    scroll offset, and it reaches down to the end of the visible range or
    to the end of the list, whichever comes first; [totalHeight] is the
    height of all rows. *)
Theorem window_covers_viewport (T : Type) (items : list T)
  (itemHeight containerHeight overscan scrollTop : Z) :
  0 < itemHeight -> 0 <= containerHeight -> 0 <= scrollTop ->
  0 <= overscan ->
  totalHeight
    (useVirtualScroll items itemHeight containerHeight overscan scrollTop)
  = len items * itemHeight
  /\ offsetY
       (useVirtualScroll items itemHeight containerHeight overscan scrollTop)
     = startIndex itemHeight overscan scrollTop * itemHeight
  /\ 0 <= offsetY
            (useVirtualScroll items itemHeight containerHeight overscan
               scrollTop)
       <= scrollTop
  /\ Z.min (len items * itemHeight) (scrollTop + containerHeight)
     <= offsetY
          (useVirtualScroll items itemHeight containerHeight overscan
             scrollTop)
        + Z.of_nat
            (List.length
               (visibleItems
                  (useVirtualScroll items itemHeight containerHeight overscan
                     scrollTop)))
          * itemHeight.
Proof.
  intros Hh Hc Hs Ho.
  unfold useVirtualScroll, mapi. cbn [totalHeight offsetY visibleItems].
  split; [reflexivity |]. split; [reflexivity |].
  pose proof (startIndex_nonneg itemHeight overscan scrollTop) as Hfirst.
  pose proof (endIndex_lower items itemHeight containerHeight overscan
                scrollTop Hh Hc Hs Ho) as Hlast.
  assert (Hstart : startIndex itemHeight overscan scrollTop * itemHeight
                   <= scrollTop).
  { unfold startIndex, floorDiv.
    pose proof (Z.mul_div_le scrollTop itemHeight Hh).
    destruct (Z.max_spec 0 (scrollTop / itemHeight - overscan))
      as [[_ ->]|[_ ->]]; nia. }
  split; [split; [nia | exact Hstart] |].
  rewrite mapFrom_length.
  rewrite (slice_length_exact items _ _ Hfirst Hlast).
  pose proof (ceil_upper (scrollTop + containerHeight) itemHeight Hh) as Hup.
  pose proof (len_nonneg items) as Hn.
  set (first := startIndex itemHeight overscan scrollTop) in *.
  unfold endIndex in *.
  set (reach := ceilDiv (scrollTop + containerHeight) itemHeight) in *.
  destruct (Z_le_dec (len items) first) as [Hout|Hin].
  - assert (len items * itemHeight <= first * itemHeight) by nia.
    assert (0 <= Z.max 0 (Z.min (Z.min (len items - 1) (reach + overscan) + 1)
                            (len items) - Z.min first (len items))
                 * itemHeight) by nia.
    lia.
  - destruct (Z_le_dec (len items - 1) (reach + overscan)) as [Hall|Hpart].
    + replace (Z.min (len items - 1) (reach + overscan)) with (len items - 1)
        by lia.
      replace (Z.min (len items - 1 + 1) (len items)) with (len items) by lia.
      replace (Z.min first (len items)) with first by lia.
      replace (Z.max 0 (len items - first)) with (len items - first) by lia.
      nia.
    + replace (Z.min (len items - 1) (reach + overscan))
        with (reach + overscan) by lia.
      replace (Z.min (reach + overscan + 1) (len items))
        with (reach + overscan + 1) by lia.
      replace (Z.min first (len items)) with first by lia.
      assert (first * itemHeight
              + Z.max 0 (reach + overscan + 1 - first) * itemHeight
              >= (reach + overscan + 1) * itemHeight) by nia.
      nia.
Qed.

Lemma window_covers_viewport_witness :
  totalHeight (useVirtualScroll (seq 0 200) 40 240 5 400) = len (seq 0 200) * 40
  /\ offsetY (useVirtualScroll (seq 0 200) 40 240 5 400)
     = startIndex 40 5 400 * 40
  /\ 0 <= offsetY (useVirtualScroll (seq 0 200) 40 240 5 400) <= 400
  /\ Z.min (len (seq 0 200) * 40) (400 + 240)
     <= offsetY (useVirtualScroll (seq 0 200) 40 240 5 400)
        + Z.of_nat
            (List.length
               (visibleItems (useVirtualScroll (seq 0 200) 40 240 5 400)))
          * 40.
Proof.
  apply (window_covers_viewport nat (seq 0 200) 40 240 5 400); lia.
Defined.

(** X17: What the menu renders is always a run of consecutive options of the
    filtered list, in their order: windowing never shows an option that
    the filter removed, never repeats and never reorders one. *)
Theorem rendered_rows_segment (p : InputDropdown.Props)
  (st : InputDropdown.State) (scrollTop : Z) :
  exists before after,
    InputDropdown.filteredOptions p st
    = before ++ InputDropdown.renderedRows p st scrollTop ++ after.
Proof.
  unfold InputDropdown.renderedRows.
  assert (Hnone : exists before after,
             InputDropdown.filteredOptions p st = before ++ [] ++ after)
    by (exists [], (InputDropdown.filteredOptions p st); reflexivity).
  destruct (negb (InputDropdown.isOpen st)); [exact Hnone |].
  destruct (InputDropdown.loading p); [exact Hnone |].
  destruct (len (InputDropdown.filteredOptions p st) =? 0); [exact Hnone |].
  unfold InputDropdown.renderVirtualItems.
  destruct (negb (InputDropdown.shouldUseVirtualScroll p st)).
  - exists [], []. now rewrite app_nil_r.
  - unfold InputDropdown.virtualScrollProps, useVirtualScroll, mapi.
    cbn [visibleItems]. rewrite map_item_mapFrom.
    apply slice_segment.
Qed.

(** X18: The width classes: mobile below 768 px, tablet from 768 px up to
    1023 px, desktop from 1024 px on, so that exactly one of them holds. *)
Theorem breakpoint_classes (width : Z) :
  (isMobile (useBreakpoint (updateBreakpoint width)) = true <-> width < 768)
  /\ (isTablet (useBreakpoint (updateBreakpoint width)) = true
      <-> 768 <= width < 1024)
  /\ (isDesktop (useBreakpoint (updateBreakpoint width)) = true
      <-> 1024 <= width).
Proof.
  unfold updateBreakpoint.
  destruct (Z.leb_spec 1536 width); [simpl; repeat split; intros; try lia;
                                     try discriminate; try reflexivity |].
  destruct (Z.leb_spec 1280 width); [simpl; repeat split; intros; try lia;
                                     try discriminate; try reflexivity |].
  destruct (Z.leb_spec 1024 width); [simpl; repeat split; intros; try lia;
                                     try discriminate; try reflexivity |].
  destruct (Z.leb_spec 768 width); simpl; repeat split; intros; try lia;
    try discriminate; try reflexivity.
Qed.

End RenderedBlock.

(* ================================================================== *)
(** * ThemeContext *)
(* ================================================================== *)

Section Theme.

Import ThemeContext.
Local Open Scope string_scope.

Lemma modeName_truthy (m : ThemeMode) : JsString.truthy (modeName m) = true.
Proof. now destruct m. Qed.

(** X19: In a state where the effect on [mode] has run, toggling and the
    render that follows flip the dark flag and pin the mode to light or
    dark, also when the mode was following the system; toggling twice
    restores the dark flag, but a mode that was "system" is then "light"
    or "dark" and follows the system no more. *)
Theorem toggle_flips_dark (storageKey : string) (th : Theme)
  (storage : Storage) (systemDark systemDark' : bool) :
  mode th = "system" \/ isDark th = (mode th =? "dark") ->
  isDark (fst (toggleAndRender storageKey systemDark th storage))
  = negb (isDark th)
  /\ mode (fst (toggleAndRender storageKey systemDark th storage))
     = (if isDark th then "light" else "dark")
  /\ isDark
       (fst (toggleAndRender storageKey systemDark'
               (fst (toggleAndRender storageKey systemDark th storage))
               (snd (toggleAndRender storageKey systemDark th storage))))
     = isDark th
  /\ mode
       (fst (toggleAndRender storageKey systemDark'
               (fst (toggleAndRender storageKey systemDark th storage))
               (snd (toggleAndRender storageKey systemDark th storage))))
     = (if isDark th then "dark" else "light").
Proof.
  intros Hsettled.
  assert (Hchange : (modeName (if isDark th then light else dark) =? mode th)
                    = false).
  { apply String.eqb_neq. intros Heq.
    destruct Hsettled as [Hsys|Hdark].
    - rewrite Hsys in Heq. destruct (isDark th); discriminate.
    - rewrite <- Heq in Hdark. destruct (isDark th); discriminate. }
  unfold toggleAndRender, toggleMode, setMode, rerender. simpl.
  rewrite Hchange. unfold updateDarkMode. simpl.
  destruct (isDark th); simpl; repeat split.
Qed.

Lemma toggle_flips_dark_witness :
  isDark (fst (toggleAndRender "luxora-ui-theme" true (mkTheme "system" true)
                 (mkStorage (fun _ => None) false false)))
  = negb (isDark (mkTheme "system" true))
  /\ mode (fst (toggleAndRender "luxora-ui-theme" true
                  (mkTheme "system" true)
                  (mkStorage (fun _ => None) false false)))
     = (if isDark (mkTheme "system" true) then "light" else "dark")
  /\ isDark
       (fst (toggleAndRender "luxora-ui-theme" true
               (fst (toggleAndRender "luxora-ui-theme" true
                       (mkTheme "system" true)
                       (mkStorage (fun _ => None) false false)))
               (snd (toggleAndRender "luxora-ui-theme" true
                       (mkTheme "system" true)
                       (mkStorage (fun _ => None) false false)))))
     = isDark (mkTheme "system" true)
  /\ mode
       (fst (toggleAndRender "luxora-ui-theme" true
               (fst (toggleAndRender "luxora-ui-theme" true
                       (mkTheme "system" true)
                       (mkStorage (fun _ => None) false false)))
               (snd (toggleAndRender "luxora-ui-theme" true
                       (mkTheme "system" true)
                       (mkStorage (fun _ => None) false false)))))
     = (if isDark (mkTheme "system" true) then "dark" else "light").
Proof.
  exact (toggle_flips_dark "luxora-ui-theme" (mkTheme "system" true)
           (mkStorage (fun _ => None) false false) true true
           (or_introl eq_refl)).
Defined.

(** Before the effect has run the flag may disagree with the mode, and a
    toggle that sets the mode it already has changes nothing. *)
Example toggle_before_effect :
  fst (toggleAndRender "luxora-ui-theme" false (mkTheme "dark" false)
         (mkStorage (fun _ => None) false false))
  = mkTheme "dark" false.
Proof. reflexivity. Qed.

(** X20: The mode survives a reload: after [setMode] on a storage that neither
    throws on writing nor on reading, a provider mounted with the same key
    starts in that mode whatever its default is, and the items under
    other keys are as before; on a storage that throws on writing the
    call changes the state only. *)
Theorem mode_survives_reload (storageKey : string) (newMode : ThemeMode)
  (th : Theme) (storage : Storage) :
  mode (fst (setMode storageKey newMode th storage)) = modeName newMode
  /\ (setItemThrows storage = false -> getItemThrows storage = false ->
      (forall defaultMode,
          initialMode true (snd (setMode storageKey newMode th storage))
            storageKey defaultMode
          = modeName newMode)
      /\ (forall other,
             other <> storageKey ->
             items (snd (setMode storageKey newMode th storage)) other
             = items storage other))
  /\ (setItemThrows storage = true ->
      snd (setMode storageKey newMode th storage) = storage).
Proof.
  split; [reflexivity |]. unfold setMode, setItem, initialMode. simpl.
  split.
  - intros Hs Hg. rewrite Hs. simpl. rewrite Hg. split.
    + intros defaultMode. rewrite String.eqb_refl.
      now rewrite modeName_truthy.
    + intros other Hne. apply String.eqb_neq in Hne. now rewrite Hne.
  - intros Hs. now rewrite Hs.
Qed.

End Theme.

(* ================================================================== *)
(** * useKeyboardNavigation: the wrap joins the two ends *)
(* ================================================================== *)

Section Wrap.

Import JsArray Hooks Spec Positions.

Lemma first_enabled_unique (options : list Option) (a b : Z) :
  enabledAt options a -> (forall i, i < a -> ~ enabledAt options i) ->
  enabledAt options b -> (forall i, i < b -> ~ enabledAt options i) ->
  a = b.
Proof.
  intros Ha Hmina Hb Hminb.
  destruct (Z.lt_trichotomy a b) as [H|[H|H]]; [| exact H |].
  - exfalso. now apply (Hminb a).
  - exfalso. now apply (Hmina b).
Qed.

Lemma last_enabled_unique (options : list Option) (a b : Z) :
  enabledAt options a -> (forall i, a < i -> ~ enabledAt options i) ->
  enabledAt options b -> (forall i, b < i -> ~ enabledAt options i) ->
  a = b.
Proof.
  intros Ha Hmaxa Hb Hmaxb.
  destruct (Z.lt_trichotomy a b) as [H|[H|H]]; [| exact H |].
  - exfalso. now apply (Hmaxa b).
  - exfalso. now apply (Hmaxb a).
Qed.

(** X21: Over distinct option objects with a non-disabled one among them, the
    wrap joins the two ends: ArrowDown from where End leads is where Home
    leads, and ArrowUp from where Home leads is where End leads, whatever
    the highlight was before. *)
Theorem wrap_joins_ends (options : list Option) (before before' : Z) :
  NoDup (map ident options) -> (exists i, enabledAt options i) ->
  arrowDown options (end_ options before) = home options before'
  /\ arrowUp options (home options before') = end_ options before.
Proof.
  intros Hnd Hex.
  destruct (end_last options before Hnd Hex) as [Hend Hafter].
  destruct (home_first options before' Hex) as [Hhome Hbefore].
  rewrite (arrowDown_forward options Hnd), (arrowUp_backward options Hnd).
  split.
  - assert (Hprev : forall o, get options (end_ options before) = Some o ->
                              isDisabled o = false).
    { intros o Ho. destruct Hend as [o' [Ho' Hd']]. congruence. }
    destruct (forward_next options (end_ options before) Hex Hprev)
      as [Hen [[Hlt _]|[_ Hmin]]].
    + exfalso. now apply (Hafter _ Hlt).
    + now apply (first_enabled_unique options).
  - assert (Hprev : forall o, get options (home options before') = Some o ->
                              isDisabled o = false).
    { intros o Ho. destruct Hhome as [o' [Ho' Hd']]. congruence. }
    destruct (backward_previous options (home options before') Hex Hprev)
      as [Hen [[Hlt _]|[_ Hmax]]].
    + exfalso. now apply (Hbefore _ Hlt).
    + now apply (last_enabled_unique options).
Qed.

Lemma wrap_joins_ends_witness :
  arrowDown Sample.mockOptions (end_ Sample.mockOptions 1)
  = home Sample.mockOptions 1
  /\ arrowUp Sample.mockOptions (home Sample.mockOptions 1)
     = end_ Sample.mockOptions 1.
Proof.
  exact (wrap_joins_ends Sample.mockOptions 1 1 mockOptions_distinct
           mockOptions_enabled).
Defined.

End Wrap.
